(** * Easy-MCP-AutoCad: the snapshot store, the scan and the query correlator

    A shallow embedding of [src/server.py].  The tools of the server talk to
    two outside parties: the AutoCAD application, reached through COM
    ([win32com.client]), and the SQLite file [autocad_data.db].  Both are
    represented by explicit state that every tool receives and returns:

    - [application] is what [Dispatch("AutoCAD.Application")] gives: the
      active document with its model space and its named selection sets;
    - [store] is the content of the two tables created by [init_db].

    A Python [try]/[except] block becomes a computation in [option]
    ([None]: an exception was raised inside the block), and the dictionary
    [entity_types] and the collection [doc.SelectionSets] are finite maps. *)

From stdpp Require Import gmap strings list fin_maps pretty.
From Stdlib Require Import ZArith Ascii.
From Stdlib.Strings Require Import Byte.

(** ** COM attributes *)

(** Reading an attribute of a COM object either yields a value, raises
    [AttributeError] (the object has no such attribute: [Missing]) or raises
    another exception ([Broken]). *)
Inductive attr (A : Type) : Type :=
| Missing
| Broken
| Has (a : A).
Arguments Missing {A}.
Arguments Broken {A}.
Arguments Has {A} a.

(** [entity.X] inside a [try] block. *)
Definition read {A} (a : attr A) : option A :=
  match a with
  | Has v => Some v
  | Missing | Broken => None
  end.

(** [hasattr(entity, "X")]: false on [AttributeError], any other exception
    propagates. *)
Definition hasattr {A} (a : attr A) : option bool :=
  match a with
  | Has _ => Some true
  | Missing => Some false
  | Broken => None
  end.

(** ** JSON values, for the [properties] column *)

#[warnings="-register-all"]
Inductive json : Type :=
| JNull
| JNum (z : Z)
| JStr (s : string)
| JArr (l : list json)
| JObj (l : list (string * json)).

(** Coordinates are kept as opaque numbers: the scan only copies them. *)
Definition point : Type := Z * Z * Z.

Definition json_point (p : point) : json :=
  match p with (x, y, z) => JArr [JNum x; JNum y; JNum z] end.

(** ** The live document *)

Record com_entity : Type := {
  ObjectName : attr string;
  Handle : attr (option string);
  Layer : attr string;
  Color : attr Z;
  (** assigning [entity.Color] raises when [locked] *)
  locked : bool;
  StartPoint : attr point;
  EndPoint : attr point;
  Center : attr point;
  Radius : attr Z;
  TextString : attr string;
  InsertionPoint : attr point;
  Height : attr Z
}.

Record document : Type := {
  Name : attr string;
  ModelSpace : list com_entity;
  (** [doc.SelectionSets]: each named set holds model-space indices *)
  SelectionSets : gmap string (list nat)
}.

(** What [win32com.client.Dispatch("AutoCAD.Application")] finds. *)
Inductive application : Type :=
| Unavailable                  (* Dispatch raises *)
| NoDocument                   (* acad.Documents.Count == 0 *)
| Active (doc : document).     (* acad.ActiveDocument *)

(** ** The snapshot store ([init_db]) *)

(** [cad_elements (id INTEGER PRIMARY KEY, handle TEXT UNIQUE,
    name TEXT NOT NULL, type TEXT NOT NULL, layer TEXT, properties TEXT)] *)
Record cad_element : Type := {
  ce_id : Z;
  ce_handle : option string;
  ce_name : string;
  ce_type : string;
  ce_layer : option string;
  ce_properties : option json
}.

(** [text_patterns (id INTEGER PRIMARY KEY, pattern TEXT UNIQUE,
    count INTEGER DEFAULT 0, drawing TEXT)] *)
Record text_pattern : Type := {
  tp_id : Z;
  tp_pattern : option string;
  tp_count : option Z;
  tp_drawing : option string
}.

Record store : Type := {
  cad_elements : list cad_element;
  text_patterns : list text_pattern
}.

(** The largest rowid of SQLite, a signed 64-bit integer. *)
Definition max_rowid : Z := 9223372036854775807.

(** The rowid SQLite picks for a row inserted without an [id], while the
    largest rowid in use is below [max_rowid]: one more than the largest in
    use, 1 in an empty table.  It is chosen before the conflicting rows of
    an [INSERT OR REPLACE] are removed.  Once [max_rowid] itself is in use
    SQLite draws an unused rowid at random instead; that draw is not
    modelled, and what is proved of an id given to a row of a table that is
    not rebuilt from the empty one assumes the ids in use below
    [max_rowid]. *)
Definition next_rowid (ids : list Z) : Z :=
  match ids with
  | [] => 1
  | i :: rest => 1 + foldl Z.max i rest
  end%Z.

(** Two values of a [UNIQUE] column conflict when both are non-NULL and
    equal. *)
Definition unique_conflict (a b : option string) : bool :=
  match a, b with
  | Some x, Some y => bool_decide (x = y)
  | _, _ => false
  end.

(** The rows an [INSERT OR REPLACE] keeps: those whose value in the
    [UNIQUE] column [key] does not conflict with the inserted value [k]. *)
Definition without_conflicts {C} (key : C → option string)
    (k : option string) (t : list C) : list C :=
  filter (λ r, unique_conflict k (key r) = false) t.

(** The values bound to [(handle, name, type, layer, properties)]. *)
Record element_values : Type := {
  ev_handle : option string;
  ev_name : string;
  ev_type : string;
  ev_layer : string;
  ev_properties : json
}.

(** [INSERT OR REPLACE INTO cad_elements (handle, name, type, layer,
    properties) VALUES (?, ?, ?, ?, ?)] *)
Definition insert_or_replace_element (v : element_values)
    (t : list cad_element) : list cad_element :=
  without_conflicts ce_handle (ev_handle v) t
  ++ [ {| ce_id := next_rowid (ce_id <$> t);
          ce_handle := ev_handle v;
          ce_name := ev_name v;
          ce_type := ev_type v;
          ce_layer := Some (ev_layer v);
          ce_properties := Some (ev_properties v) |} ].

(** [INSERT OR REPLACE INTO text_patterns (pattern, count, drawing)
    VALUES (?, ?, ?)] *)
Definition insert_or_replace_pattern (pattern : string) (count : nat)
    (drawing : string) (t : list text_pattern) : list text_pattern :=
  without_conflicts tp_pattern (Some pattern) t
  ++ [ {| tp_id := next_rowid (tp_id <$> t);
          tp_pattern := Some pattern;
          tp_count := Some (Z.of_nat count);
          tp_drawing := Some drawing |} ].

(** ** Strings *)

(** [s.startswith(p)] *)
Fixpoint startswith (p s : string) : bool :=
  match p, s with
  | EmptyString, _ => true
  | String a p', String b s' => bool_decide (a = b) && startswith p' s'
  | String _ _, EmptyString => false
  end.

(** [s.replace(p, "")] for a non-empty [p]: every occurrence found scanning
    from the left is dropped; [skip] counts the characters of a match still
    to drop. *)
Fixpoint remove_from (p : string) (skip : nat) (s : string) : string :=
  match s with
  | EmptyString => EmptyString
  | String c s' =>
      match skip with
      | S k => remove_from p k s'
      | O => if startswith p s
             then remove_from p (String.length p - 1) s'
             else String c (remove_from p 0 s')
      end
  end.

Definition remove_all (p s : string) : string := remove_from p 0 s.

(** [p in s] *)
Fixpoint contains (p s : string) : bool :=
  startswith p s ||
  match s with
  | EmptyString => false
  | String _ s' => contains p s'
  end.

(** ** [scan_all_entities] *)

(** The branch on [entity_type] that fills [properties]. *)
Definition extract_properties (entity_type : string) (entity : com_entity)
    : option json :=
  if bool_decide (entity_type = "AcDbLine") then
    s ← read (StartPoint entity);
    e ← read (EndPoint entity);
    Some (JObj [("start_point", json_point s); ("end_point", json_point e)])
  else if bool_decide (entity_type = "AcDbCircle") then
    c ← read (Center entity);
    r ← read (Radius entity);
    Some (JObj [("center", json_point c); ("radius", JNum r)])
  else if bool_decide (entity_type = "AcDbText")
          || bool_decide (entity_type = "AcDbMText") then
    t ← read (TextString entity);
    has_position ← hasattr (InsertionPoint entity);
    position ← (if has_position : bool
                then json_point <$> read (InsertionPoint entity)
                else Some JNull);
    has_height ← hasattr (Height entity);
    height ← (if has_height : bool
              then JNum <$> read (Height entity)
              else Some JNull);
    Some (JObj [("text", JStr t); ("position", position); ("height", height)])
  else
    Some (JObj []).

(** What the body of the loop binds to the [INSERT OR REPLACE], once the
    type tag [entity_type] has been read; [None] when a read raises. *)
Definition element_of (entity_type : string) (entity : com_entity)
    : option element_values :=
  properties ← extract_properties entity_type entity;
  h ← read (Handle entity);
  n ← read (ObjectName entity);
  ty ← read (ObjectName entity);
  ly ← read (Layer entity);
  Some {| ev_handle := h;
          ev_name := remove_all "AcDb" n;
          ev_type := ty;
          ev_layer := ly;
          ev_properties := properties |}.

(** [entity_types[entity_type] += 1], or [= 1] for a new key. *)
Definition count_type (entity_type : string) (entity_types : gmap string nat)
    : gmap string nat :=
  match entity_types !! entity_type with
  | Some n => <[entity_type := n + 1]> entity_types
  | None => <[entity_type := 1]> entity_types
  end.

(** The variables the loop updates. *)
Record scan_state : Type := {
  sc_rows : list cad_element;
  sc_count : nat;
  sc_types : gmap string nat
}.

(** One iteration: the [try] body and its [except], which only prints. *)
Definition scan_entity (s : scan_state) (entity : com_entity) : scan_state :=
  match read (ObjectName entity) with
  | None => s
  | Some entity_type =>
      let entity_types := count_type entity_type (sc_types s) in
      match element_of entity_type entity with
      | None =>
          {| sc_rows := sc_rows s;
             sc_count := sc_count s;
             sc_types := entity_types |}
      | Some v =>
          {| sc_rows := insert_or_replace_element v (sc_rows s);
             sc_count := sc_count s + 1;
             sc_types := entity_types |}
      end
  end.

Inductive scan_result : Type :=
| ScanNoDocument                                     (* "No open document. ..." *)
| Scanned (count : nat) (entity_types : gmap string nat)
                                                     (* "Scanned and saved ..." *)
| ScanFailed.                                        (* "Failed to scan entities: ..." *)

(** The loop starts from the table emptied by [DELETE FROM cad_elements]. *)
Definition scan_loop (entities : list com_entity) : scan_state :=
  foldl scan_entity {| sc_rows := []; sc_count := 0; sc_types := ∅ |} entities.

Definition scan_all_entities (acad : application) (db : store)
    : scan_result * store :=
  match acad with
  | Unavailable => (ScanFailed, db)
  | NoDocument => (ScanNoDocument, db)
  | Active doc =>
      let s := scan_loop (ModelSpace doc) in
      (Scanned (sc_count s) (sc_types s),
       {| cad_elements := sc_rows s; text_patterns := text_patterns db |})
  end.

(** ** [count_text_patterns] *)

(** One entry of [matching_entities]. *)
Record pattern_match : Type := {
  pm_handle : option string;
  pm_text : string;
  pm_layer : string;
  pm_position : option (Z * Z)
}.

(** The dictionary appended to [matching_entities]; [None] when one of its
    reads raises. *)
Definition match_details (text : string) (entity : com_entity)
    : option pattern_match :=
  h ← read (Handle entity);
  ly ← read (Layer entity);
  has_position ← hasattr (InsertionPoint entity);
  position ← (if has_position : bool
              then (λ p : point, Some (p.1.1, p.1.2)) <$> read (InsertionPoint entity)
              else Some None);
  Some {| pm_handle := h; pm_text := text; pm_layer := ly;
          pm_position := position |}.

(** One iteration over [(count, matching_entities)].  [count += 1] comes
    before the reads of the appended dictionary. *)
Definition count_entity (pattern : string) (s : nat * list pattern_match)
    (entity : com_entity) : nat * list pattern_match :=
  match hasattr (TextString entity) with
  | Some true =>
      match read (TextString entity) with
      | Some text =>
          if contains pattern text then
            match match_details text entity with
            | Some m => (s.1 + 1, s.2 ++ [m])
            | None => (s.1 + 1, s.2)
            end
          else s
      | None => s
      end
  | Some false | None => s
  end.

Definition count_loop (pattern : string) (entities : list com_entity)
    : nat * list pattern_match :=
  foldl (count_entity pattern) (0, []) entities.

Inductive count_result : Type :=
| CountNoDocument
| Counted (count : nat) (drawing_name : string)
          (shown : list pattern_match) (more : nat)
| CountFailed.

Definition count_text_patterns (acad : application) (db : store)
    (pattern : string) : count_result * store :=
  match acad with
  | Unavailable => (CountFailed, db)
  | NoDocument => (CountNoDocument, db)
  | Active doc =>
      match read (Name doc) with
      | None => (CountFailed, db)
      | Some drawing_name =>
          let '(count, matching_entities) :=
            count_loop pattern (ModelSpace doc) in
          (Counted count drawing_name (take 10 matching_entities)
                   (length matching_entities - 10),
           {| cad_elements := cad_elements db;
              text_patterns :=
                insert_or_replace_pattern pattern count drawing_name
                                          (text_patterns db) |})
      end
  end.

(** ** Selection sets and resolution by handle *)

(** [selection.Select(2, 0, 0, filter_type, filter_data)] with the filter
    on [handle]: the model-space indices of the entities carrying it. *)
Fixpoint select_from (i : nat) (handle : string) (entities : list com_entity)
    : list nat :=
  match entities with
  | [] => []
  | e :: rest =>
      match Handle e with
      | Has (Some h) =>
          if bool_decide (h = handle)
          then i :: select_from (S i) handle rest
          else select_from (S i) handle rest
      | _ => select_from (S i) handle rest
      end
  end.

Definition select_by_handle (handle : string) (doc : document) : list nat :=
  select_from 0 handle (ModelSpace doc).

Definition with_sets (sets : gmap string (list nat)) (doc : document)
    : document :=
  {| Name := Name doc; ModelSpace := ModelSpace doc; SelectionSets := sets |}.

Definition with_color (c : Z) (e : com_entity) : com_entity :=
  {| ObjectName := ObjectName e; Handle := Handle e; Layer := Layer e;
     Color := Has c; locked := locked e;
     StartPoint := StartPoint e; EndPoint := EndPoint e;
     Center := Center e; Radius := Radius e;
     TextString := TextString e; InsertionPoint := InsertionPoint e;
     Height := Height e |}.

(** [entity.Color = c] for the entity at index [i]; raises when the entity
    is locked. *)
Definition set_color (i : nat) (c : Z) (doc : document) : option document :=
  e ← ModelSpace doc !! i;
  if locked e then None
  else Some {| Name := Name doc;
               ModelSpace := <[i := with_color c e]> (ModelSpace doc);
               SelectionSets := SelectionSets doc |}.

(** [doc.SelectionSets.Add(name)]: raises when the name is taken. *)
Definition add_selection_set (name : string) (doc : document)
    : option document :=
  match SelectionSets doc !! name with
  | Some _ => None
  | None => Some (with_sets (<[name := []]> (SelectionSets doc)) doc)
  end.

(** [selection.Delete()] *)
Definition delete_selection_set (name : string) (doc : document) : document :=
  with_sets (delete name (SelectionSets doc)) doc.

(** [selection.AddItems([entity])]: a selection set holds an entity once. *)
Definition add_item (name : string) (i : nat) (doc : document) : document :=
  match SelectionSets doc !! name with
  | Some members =>
      if bool_decide (i ∈ members) then doc
      else with_sets (<[name := members ++ [i]]> (SelectionSets doc)) doc
  | None => doc
  end.

(** ** [highlight_entity] *)

Inductive highlight_result : Type :=
| HighlightNoDocument
| HighlightNotFound
| Highlighted (original_color color : Z)
| HighlightFailed.

(** The statements after [doc = acad.ActiveDocument]; the document is
    returned as it stands when the function returns, also when an exception
    ends the [try] block. *)
Definition highlight_in (handle : string) (color : Z) (doc : document)
    : highlight_result * document :=
  match add_selection_set "TempSS" doc with
  | None => (HighlightFailed, doc)
  | Some doc1 =>
      let found := select_by_handle handle doc1 in
      let doc2 := with_sets (<["TempSS" := found]> (SelectionSets doc1)) doc1 in
      match found with
      | [] => (HighlightNotFound, delete_selection_set "TempSS" doc2)
      | i :: _ =>
          match e ← ModelSpace doc2 !! i; read (Color e) with
          | None => (HighlightFailed, doc2)
          | Some original_color =>
              match set_color i color doc2 with
              | None => (HighlightFailed, doc2)
              | Some doc3 =>
                  (Highlighted original_color color,
                   delete_selection_set "TempSS" doc3)
              end
          end
      end
  end.

Definition highlight_entity (acad : application) (handle : string)
    (color : Z) : highlight_result * application :=
  match acad with
  | Unavailable => (HighlightFailed, acad)
  | NoDocument => (HighlightNoDocument, acad)
  | Active doc =>
      let '(r, doc') := highlight_in handle color doc in (r, Active doc')
  end.

(** ** Query text *)

(** Python's [str.isspace] on an ASCII character: tab to carriage return,
    the four separators 28 to 31, and the space. *)
Definition isspace (c : ascii) : bool :=
  let n := nat_of_ascii c in
  (9 <=? n) && (n <=? 13) || (28 <=? n) && (n <=? 32).

Definition upper_char (c : ascii) : ascii :=
  let n := nat_of_ascii c in
  if (97 <=? n) && (n <=? 122) then ascii_of_nat (n - 32) else c.

Definition lower_char (c : ascii) : ascii :=
  let n := nat_of_ascii c in
  if (65 <=? n) && (n <=? 90) then ascii_of_nat (n + 32) else c.

Fixpoint map_string (f : ascii → ascii) (s : string) : string :=
  match s with
  | EmptyString => EmptyString
  | String c s' => String (f c) (map_string f s')
  end.

(** [s.upper()] and [s.lower()] on ASCII text *)
Definition upper : string → string := map_string upper_char.
Definition lower : string → string := map_string lower_char.

Fixpoint lstrip (s : string) : string :=
  match s with
  | EmptyString => EmptyString
  | String c s' => if isspace c then lstrip s' else s
  end.

Fixpoint rstrip (s : string) : string :=
  match s with
  | EmptyString => EmptyString
  | String c s' =>
      match rstrip s' with
      | EmptyString => if isspace c then EmptyString else String c EmptyString
      | t => String c t
      end
  end.

(** [s.strip()] *)
Definition strip (s : string) : string := lstrip (rstrip s).

(** ** The SQLite engine *)

(** Values of a result row, as [sqlite3] hands them to Python: [None], an
    [int], a [str], a [float] (kept by its 64-bit pattern: it is only
    copied) or [bytes]. *)
Inductive sql_value : Type :=
| SqlNull
| SqlInteger (z : Z)
| SqlText (s : string)
| SqlReal (bits : Z)
| SqlBlob (b : list byte).

(** What [cursor.execute(text)] does on a store: it raises, or it leaves a
    cursor with its [description] ([None] for a statement without a result
    set), the rows [fetchall] returns, its [rowcount], and the store as a
    following [commit] makes it. *)
Inductive exec_result : Type :=
| ExecError (msg : string)
| ExecOk (description : option (list string)) (rows : list (list sql_value))
         (rowcount : Z) (committed : store).

(** The tools run arbitrary text, so they are stated over any engine. *)
Definition sql_engine : Type := store → string → exec_result.

(** ** [execute_query] *)

(** [d[k] = v] on a dictionary kept in insertion order. *)
Fixpoint dict_set {V} (k : string) (v : V) (d : list (string * V))
    : list (string * V) :=
  match d with
  | [] => [(k, v)]
  | (k', v') :: d' =>
      if bool_decide (k = k') then (k, v) :: d'
      else (k', v') :: dict_set k v d'
  end.

(** [dict(pairs)] *)
Definition dict_of {V} (pairs : list (string * V)) : list (string * V) :=
  foldl (λ d kv, dict_set kv.1 kv.2 d) [] pairs.

Inductive query_result : Type :=
| QueryRows (result : list (list (string * sql_value)))
                                   (* the JSON list of row dictionaries *)
| QueryAffected (affected : Z)     (* "Query executed successfully, ..." *)
| QueryError (msg : string).       (* "Failed to execute query: ..." *)

#[global] Instance byte_eq_dec : EqDecision byte := Byte.byte_eq_dec.

#[global] Instance sql_value_eq_dec : EqDecision sql_value.
Proof. solve_decision. Defined.

(** [json.dumps] raises on [bytes], and on nothing else [sqlite3]
    returns. *)
Definition json_serializable (v : sql_value) : bool :=
  match v with
  | SqlBlob _ => false
  | SqlNull | SqlInteger _ | SqlText _ | SqlReal _ => true
  end.

(** Every value of every row dictionary can be written as JSON. *)
Definition all_serializable (result : list (list (string * sql_value)))
    : bool :=
  forallb (λ d, forallb (λ kv : string * sql_value, json_serializable kv.2) d)
          result.

(** In the SELECT branch [json.dumps(result)] comes after [conn.commit()]:
    when it raises, the [except] answers and the commit stays. *)
Definition execute_query (sqlite : sql_engine) (db : store) (query : string)
    : query_result * store :=
  match sqlite db query with
  | ExecError msg => (QueryError msg, db)
  | ExecOk description rows rowcount db' =>
      if startswith "SELECT" (upper (strip query)) then
        match description with
        | None => (QueryError "'NoneType' object is not iterable", db)
        | Some columns =>
            let result := (λ row, dict_of (zip columns row)) <$> rows in
            if all_serializable result
            then (QueryRows result, db')
            else (QueryError "Object of type bytes is not JSON serializable",
                  db')
        end
      else (QueryAffected rowcount, db')
  end.

(** ** [query_and_highlight] *)

(** The loop over [enumerate(column_names)] that looks for ['handle']. *)
Fixpoint find_handle (i : nat) (column_names : list string) : option nat :=
  match column_names with
  | [] => None
  | name :: rest =>
      if bool_decide (lower name = "handle") then Some i
      else find_handle (S i) rest
  end.

(** [random.randint(lo, hi)] from the generator's next raw output. *)
Definition randint (lo hi raw : N) : N := (lo + raw mod (hi - lo + 1))%N.

(** [f"Temp_{random.randint(1000, 9999)}"] *)
Definition temp_name (raw : N) : string :=
  "Temp_" +:+ pretty (randint 1000 9999 raw).

(** Resolution of one value of the handle column: only a text value can
    name an entity. *)
Definition select_value (handle : sql_value) (doc : document) : list nat :=
  match handle with
  | SqlText h => select_by_handle h doc
  | SqlNull | SqlInteger _ | SqlReal _ | SqlBlob _ => []
  end.

(** One iteration of the loop over [handles], on the document and
    [highlighted_count]; [raw] is the generator's output for this
    iteration.  When the [try] body raises, the [except] only prints: the
    document stays as the body left it.  The viewport ([ZoomAll]) is not
    part of the state. *)
Definition highlight_handle (highlight_color : Z) (raw : N)
    (s : document * nat) (handle : sql_value) : document * nat :=
  let '(doc, highlighted_count) := s in
  match add_selection_set (temp_name raw) doc with
  | None => (doc, highlighted_count)
  | Some doc1 =>
      let found := select_value handle doc1 in
      let doc2 :=
        with_sets (<[temp_name raw := found]> (SelectionSets doc1)) doc1 in
      match found with
      | [] => (delete_selection_set (temp_name raw) doc2, highlighted_count)
      | i :: _ =>
          match set_color i highlight_color doc2 with
          | None => (doc2, highlighted_count)
          | Some doc3 =>
              (delete_selection_set (temp_name raw)
                 (add_item "QueryResults" i doc3),
               highlighted_count + 1)
          end
      end
  end.

(** The loop; [rng k] is the generator's [k]-th output. *)
Fixpoint highlight_loop (highlight_color : Z) (rng : nat → N) (k : nat)
    (handles : list sql_value) (s : document * nat) : document * nat :=
  match handles with
  | [] => s
  | handle :: rest =>
      highlight_loop highlight_color rng (S k) rest
        (highlight_handle highlight_color (rng k) s handle)
  end.

Inductive correlate_result : Type :=
| NoResults                         (* "Query returned no results" *)
| NoHandleColumn                    (* "No 'handle' column found in query results" *)
| CorrelateNoDocument               (* "No open document. ..." *)
| HighlightedRows (highlighted_count total : nat)
                                    (* "Highlighted n entities (out of m results)" *)
| NoneHighlighted                   (* "Failed to highlight any entities" *)
| CorrelateFailed (msg : string).   (* "Failed to query and highlight: ..." *)

(** The fixed texts returned to the caller. *)
Definition correlate_message (r : correlate_result) : option string :=
  match r with
  | NoResults => Some "Query returned no results"
  | NoHandleColumn => Some "No 'handle' column found in query results"
  | CorrelateNoDocument =>
      Some "No open document. Please create or open a drawing first."
  | NoneHighlighted => Some "Failed to highlight any entities"
  | HighlightedRows _ _ | CorrelateFailed _ => None
  end.

(** [[row[handle_index] for row in rows]]: [None] on an [IndexError]. *)
Definition extract_handles (handle_index : nat) (rows : list (list sql_value))
    : option (list sql_value) :=
  mapM (λ row : list sql_value, row !! handle_index) rows.

(** The part that touches the live document. *)
Definition highlight_handles (rng : nat → N) (highlight_color : Z)
    (handles : list sql_value) (doc : document)
    : correlate_result * document :=
  let doc0 := with_sets (<["QueryResults" := []]>
                           (delete "QueryResults" (SelectionSets doc))) doc in
  let '(doc1, highlighted_count) :=
    highlight_loop highlight_color rng 0 handles (doc0, 0) in
  if decide (0 < highlighted_count)
  then (HighlightedRows highlighted_count (length handles), doc1)
  else (NoneHighlighted, delete_selection_set "QueryResults" doc1).

Definition query_and_highlight (sqlite : sql_engine) (rng : nat → N)
    (db : store) (acad : application) (sql_query : string)
    (highlight_color : Z) : correlate_result * application :=
  match sqlite db sql_query with
  | ExecError msg => (CorrelateFailed msg, acad)
  | ExecOk description rows _ _ =>
      match rows with
      | [] => (NoResults, acad)
      | _ :: _ =>
          match description with
          | None => (CorrelateFailed "'NoneType' object is not iterable", acad)
          | Some column_names =>
              match find_handle 0 column_names with
              | None => (NoHandleColumn, acad)
              | Some handle_index =>
                  match extract_handles handle_index rows with
                  | None => (CorrelateFailed "tuple index out of range", acad)
                  | Some handles =>
                      match acad with
                      | Unavailable => (CorrelateFailed "Dispatch", acad)
                      | NoDocument => (CorrelateNoDocument, acad)
                      | Active doc =>
                          let '(r, doc') :=
                            highlight_handles rng highlight_color handles doc in
                          (r, Active doc')
                      end
                  end
              end
          end
      end
  end.

(** * Properties *)

(** ** The string helpers on the texts of the source *)

Example remove_all_AcDb :
  remove_all "AcDb" "AcDbLine" = "Line" ∧
  remove_all "AcDb" "AcDbAcDbMText" = "MText" ∧
  remove_all "AcDb" "Circle" = "Circle".
Proof. by vm_compute. Qed.

Example contains_pattern :
  contains "PMC-3M" "pump PMC-3M/2" = true ∧
  contains "PMC-3M" "pump pmc-3m" = false ∧
  contains "" "" = true.
Proof. by vm_compute. Qed.

Example select_prefix :
  startswith "SELECT" (upper (strip "  select * from cad_elements ")) = true ∧
  startswith "SELECT" (upper (strip "WITH t AS (SELECT 1) SELECT * FROM t"))
    = false ∧
  startswith "SELECT" (upper (strip "DELETE FROM cad_elements")) = false.
Proof. by vm_compute. Qed.

Example handle_column_found :
  find_handle 0 ["id"; "HANDLE"; "handle"] = Some 1 ∧
  find_handle 0 ["id"; "handles"] = None.
Proof. by vm_compute. Qed.

Example temp_name_range :
  temp_name 0 = "Temp_1000" ∧ temp_name 8999 = "Temp_9999" ∧
  temp_name 9000 = "Temp_1000".
Proof. by vm_compute. Qed.

Example dict_of_duplicate_key :
  dict_of [("a", SqlInteger 1); ("b", SqlInteger 2); ("a", SqlInteger 3)]
    = [("a", SqlInteger 3); ("b", SqlInteger 2)].
Proof. by vm_compute. Qed.

(** ** A [UNIQUE] column under [INSERT OR REPLACE] *)

Section UniqueColumn.
Context {C : Type} (key : C → option string).

(** The constraint itself: the non-NULL values of the column are pairwise
    different. *)
Definition unique_column (t : list C) : Prop := NoDup (omap key t).

(** What a sequence of insert-or-replace leaves of the inserted rows: a
    row is dropped when a later one carries the same non-NULL value. *)
Fixpoint keep_last (l : list C) : list C :=
  match l with
  | [] => []
  | c :: rest =>
      if existsb (λ c', unique_conflict (key c) (key c')) rest
      then keep_last rest
      else c :: keep_last rest
  end.

Lemma unique_conflict_true a b :
  unique_conflict a b = true ↔ ∃ h, a = Some h ∧ b = Some h.
Proof.
  destruct a as [x|], b as [y|]; simpl; split;
    try (intros (h & ? & ?); simplify_eq); try done.
  - intros ->%bool_decide_eq_true. eauto.
  - by apply bool_decide_eq_true.
Qed.

Lemma unique_conflict_sym a b : unique_conflict a b = unique_conflict b a.
Proof.
  destruct a as [x|], b as [y|]; simpl; try done.
  apply bool_decide_ext. naive_solver.
Qed.

Lemma omap_without_conflicts_sublist k t :
  omap key (without_conflicts key k t) `sublist_of` omap key t.
Proof.
  unfold without_conflicts. induction t as [|r t IH]; [done|].
  rewrite filter_cons. case_decide; simpl.
  - destruct (key r); [by constructor|done].
  - destruct (key r); [by constructor|done].
Qed.

Lemma without_conflicts_clears h t :
  h ∉ omap key (without_conflicts key (Some h) t).
Proof.
  unfold without_conflicts. intros (r & Hr & Hk)%list_elem_of_omap.
  apply list_elem_of_filter in Hr as [Hc _].
  rewrite Hk in Hc. simpl in Hc. by rewrite bool_decide_eq_false in Hc.
Qed.

(** Insert-or-replace re-establishes the constraint. *)
Lemma unique_column_insert (r : C) t :
  unique_column t →
  unique_column (without_conflicts key (key r) t ++ [r]).
Proof.
  unfold unique_column. intros Hu. rewrite omap_app. apply NoDup_app.
  split; [by eapply sublist_NoDup, omap_without_conflicts_sublist|].
  split.
  - intros h Hin. simpl. destruct (key r) as [h'|] eqn:Hk; simpl.
    + intros ->%list_elem_of_singleton.
      by apply (without_conflicts_clears h') in Hin.
    + apply not_elem_of_nil.
  - simpl. destruct (key r); [apply NoDup_singleton|apply NoDup_nil_2].
Qed.

Lemma unique_column_keep_last t : unique_column t → keep_last t = t.
Proof.
  unfold unique_column. induction t as [|c t IH]; [done|].
  simpl. intros Hu.
  assert (existsb (λ c', unique_conflict (key c) (key c')) t = false) as ->.
  { apply not_true_is_false. intros (c' & Hin & Hc)%existsb_exists.
    apply unique_conflict_true in Hc as (h & Hk & Hk').
    rewrite Hk in Hu. simpl in Hu. apply NoDup_cons in Hu as [Hn _].
    apply Hn, list_elem_of_omap. exists c'. split; [by apply list_elem_of_In|done]. }
  f_equal. apply IH. destruct (key c); [by apply NoDup_cons in Hu as [_ ?]|done].
Qed.

(** Rows dropped for [k] do not conflict with a value that does not
    conflict with [k]. *)
Lemma existsb_without_conflicts k a t :
  unique_conflict k a = false →
  existsb (λ c', unique_conflict a (key c')) (without_conflicts key k t)
  = existsb (λ c', unique_conflict a (key c')) t.
Proof.
  intros Hka. unfold without_conflicts.
  induction t as [|r t IH]; [done|].
  rewrite filter_cons. case_decide as Hr; simpl; [by rewrite IH|].
  rewrite IH. apply not_false_is_true, unique_conflict_true in Hr
    as (h & -> & Hr).
  assert (unique_conflict a (key r) = false) as ->; [|done].
  rewrite Hr. destruct a as [x|]; [|done]. simpl in *.
  apply bool_decide_eq_false. apply bool_decide_eq_false in Hka. congruence.
Qed.

Lemma keep_last_without_conflicts c t l :
  keep_last (without_conflicts key (key c) t ++ c :: l)
  = keep_last (t ++ c :: l).
Proof.
  induction t as [|a t IH]; [done|].
  unfold without_conflicts in *. rewrite filter_cons.
  case_decide as Ha; simpl.
  - rewrite !existsb_app, IH.
    fold (without_conflicts key (key c) t).
    by rewrite (existsb_without_conflicts _ _ _ Ha).
  - rewrite IH. apply not_false_is_true in Ha.
    rewrite existsb_app. simpl.
    by rewrite (unique_conflict_sym (key a)), Ha, orb_true_r.
Qed.

(** A run of insert-or-replace on a table that satisfies the constraint
    keeps, of the old and the new rows, the last one for each value. *)
Lemma foldl_insert_keep_last l t :
  unique_column t →
  foldl (λ t c, without_conflicts key (key c) t ++ [c]) t l
  = keep_last (t ++ l).
Proof.
  revert t. induction l as [|c l IH]; intros t Hu; simpl.
  - by rewrite app_nil_r, unique_column_keep_last.
  - rewrite IH by by apply unique_column_insert.
    rewrite <-app_assoc. apply keep_last_without_conflicts.
Qed.

Lemma unique_column_foldl_insert l t :
  unique_column t →
  unique_column (foldl (λ t c, without_conflicts key (key c) t ++ [c]) t l).
Proof.
  revert t. induction l as [|c l IH]; intros t Hu; simpl; [done|].
  by apply IH, unique_column_insert.
Qed.

Lemma length_keep_last l : length (keep_last l) ≤ length l.
Proof.
  induction l as [|c l IH]; simpl; [done|].
  destruct (existsb _ l); simpl; lia.
Qed.
End UniqueColumn.

(** ** The synchronization scan *)

(** An entity is captured when every read of the loop body succeeds; its
    values are then bound to the insert. *)
Definition capture (entity : com_entity) : option element_values :=
  entity_type ← read (ObjectName entity);
  element_of entity_type entity.

Definition captured (doc : document) : list element_values :=
  omap capture (ModelSpace doc).

(** The entities whose type tag could be read, with that tag. *)
Definition type_tags (doc : document) : list string :=
  omap (λ e, read (ObjectName e)) (ModelSpace doc).

(** The sum of the counts of a histogram. *)
Definition histogram_total (m : gmap string nat) : nat :=
  map_fold (λ _ n acc, n + acc) 0 m.

(** The columns of a stored row the scan fills, and the same for the values
    bound to an insert. *)
Definition row_content (r : cad_element)
    : option string * string * string * option string * option json :=
  (ce_handle r, ce_name r, ce_type r, ce_layer r, ce_properties r).

Definition bound_content (v : element_values)
    : option string * string * string * option string * option json :=
  (ev_handle v, ev_name v, ev_type v, Some (ev_layer v),
   Some (ev_properties v)).

Lemma scan_entity_captured s e v :
  capture e = Some v →
  scan_entity s e =
    {| sc_rows := insert_or_replace_element v (sc_rows s);
       sc_count := sc_count s + 1;
       sc_types := sc_types (scan_entity s e) |}.
Proof.
  unfold capture, scan_entity. destruct (read (ObjectName e)) as [ty|]; [|done].
  simpl. by intros ->.
Qed.

Lemma scan_entity_skipped s e :
  capture e = None →
  sc_rows (scan_entity s e) = sc_rows s ∧
  sc_count (scan_entity s e) = sc_count s.
Proof.
  unfold capture, scan_entity. destruct (read (ObjectName e)) as [ty|]; [|done].
  simpl. by intros ->.
Qed.

Lemma scan_entity_types s e :
  sc_types (scan_entity s e) =
    match read (ObjectName e) with
    | Some ty => count_type ty (sc_types s)
    | None => sc_types s
    end.
Proof.
  unfold scan_entity. destruct (read (ObjectName e)) as [ty|]; [|done].
  by destruct (element_of ty e).
Qed.

(** The three variables of the loop, each as a fold of its own. *)
Lemma scan_foldl entities s :
  let s' := foldl scan_entity s entities in
  sc_rows s' = foldl (λ t v, insert_or_replace_element v t) (sc_rows s)
                     (omap capture entities) ∧
  sc_count s' = sc_count s + length (omap capture entities) ∧
  sc_types s' = foldl (λ m ty, count_type ty m) (sc_types s)
                      (omap (λ e, read (ObjectName e)) entities).
Proof.
  revert s. induction entities as [|e l IH]; intros s; simpl.
  { split_and!; (done || lia). }
  destruct (IH (scan_entity s e)) as (Hr & Hc & Ht). simpl in *.
  rewrite Hr, Hc, Ht, scan_entity_types. clear Hr Hc Ht IH.
  destruct (capture e) as [v|] eqn:Hcap.
  - rewrite (scan_entity_captured _ _ _ Hcap). simpl.
    assert (is_Some (read (ObjectName e))) as [ty Hty].
    { unfold capture in Hcap. destruct (read (ObjectName e)); [eauto|done]. }
    rewrite Hty. simpl. split_and!; (done || (unfold omap; lia)).
  - destruct (scan_entity_skipped s e Hcap) as [-> ->].
    destruct (read (ObjectName e)); simpl; split_and!; (done || (unfold omap; lia)).
Qed.

(** The histogram: one increment per tag. *)
Lemma count_type_lookup ty m t :
  default 0 (count_type ty m !! t) =
    default 0 (m !! t) + (if bool_decide (t = ty) then 1 else 0).
Proof.
  unfold count_type. case_bool_decide as Ht.
  - subst t. destruct (m !! ty) eqn:Hm; rewrite lookup_insert_eq; simpl; lia.
  - destruct (m !! ty); rewrite lookup_insert_ne by done; lia.
Qed.

Lemma count_type_total ty m :
  histogram_total (count_type ty m) = histogram_total m + 1.
Proof.
  unfold histogram_total, count_type. destruct (m !! ty) as [n|] eqn:Hm.
  - rewrite <-(insert_delete_eq m ty (n + 1)).
    rewrite (map_fold_insert_L _ _ ty (n + 1)); [|intros; lia|apply lookup_delete_eq].
    rewrite <-(insert_delete_id m ty n Hm) at 2.
    rewrite (map_fold_insert_L _ _ ty n); [|intros; lia|apply lookup_delete_eq].
    lia.
  - rewrite map_fold_insert_L; [lia|intros; lia|done].
Qed.

Lemma histogram_foldl tags m :
  let m' := foldl (λ m ty, count_type ty m) m tags in
  (∀ t, default 0 (m' !! t) =
        default 0 (m !! t) + length (filter (λ ty, ty = t) tags)) ∧
  histogram_total m' = histogram_total m + length tags.
Proof.
  revert m. induction tags as [|ty l IH]; intros m; simpl.
  { split; [intros; lia|lia]. }
  destruct (IH (count_type ty m)) as [Hl Ht]. simpl in *. split.
  - intros t. rewrite Hl, count_type_lookup, filter_cons.
    case_bool_decide; case_decide; simplify_eq; simpl; lia.
  - rewrite Ht, count_type_total. lia.
Qed.

(** The entities whose type tag was counted although a later read of the
    loop body raised, with that tag. *)
Definition dropped_after_tag (doc : document) : list string :=
  omap (λ e, match capture e with
             | Some _ => None
             | None => read (ObjectName e)
             end) (ModelSpace doc).

Definition content_key
    (c : option string * string * string * option string * option json)
    : option string := c.1.1.1.1.

Lemma without_conflicts_fmap {A B} (f : A → B) keyA keyB k (t : list A) :
  (∀ a, keyB (f a) = keyA a) →
  f <$> without_conflicts keyA k t = without_conflicts keyB k (f <$> t).
Proof.
  intros Hk. unfold without_conflicts. induction t as [|a t IH]; [done|].
  rewrite fmap_cons, !filter_cons, Hk.
  case_decide; [rewrite fmap_cons|]; by rewrite IH.
Qed.

Lemma insert_or_replace_element_content v t :
  row_content <$> insert_or_replace_element v t =
    without_conflicts content_key (content_key (bound_content v))
                      (row_content <$> t) ++ [bound_content v].
Proof.
  unfold insert_or_replace_element. rewrite fmap_app. f_equal.
  by apply without_conflicts_fmap.
Qed.

Lemma scan_rows_content vs t :
  row_content <$> foldl (λ t v, insert_or_replace_element v t) t vs =
    foldl (λ cs c, without_conflicts content_key (content_key c) cs ++ [c])
          (row_content <$> t) (bound_content <$> vs).
Proof.
  revert t. induction vs as [|v vs IH]; intros t; [done|].
  simpl. by rewrite IH, insert_or_replace_element_content.
Qed.

Lemma unique_column_content t :
  unique_column content_key (row_content <$> t) ↔ unique_column ce_handle t.
Proof.
  unfold unique_column.
  assert (omap content_key (row_content <$> t) = omap ce_handle t) as ->; [|done].
  induction t as [|r t IH]; [done|]. csimpl. unfold content_key at 1. simpl.
  destruct (ce_handle r); by rewrite IH.
Qed.

(** The table the loop builds from the emptied one. *)
Lemma scan_loop_rows entities :
  row_content <$> sc_rows (scan_loop entities) =
    keep_last content_key (bound_content <$> omap capture entities) ∧
  unique_column ce_handle (sc_rows (scan_loop entities)).
Proof.
  unfold scan_loop.
  destruct (scan_foldl entities {| sc_rows := []; sc_count := 0; sc_types := ∅ |})
    as (Hr & _ & _). simpl in Hr.
  assert (unique_column content_key []) as Hnil by constructor.
  split.
  - rewrite Hr, scan_rows_content. simpl.
    by rewrite foldl_insert_keep_last.
  - apply unique_column_content. rewrite Hr, scan_rows_content. simpl.
    by apply unique_column_foldl_insert.
Qed.

Lemma capture_type e v :
  capture e = Some v → read (ObjectName e) = Some (ev_type v).
Proof.
  unfold capture, element_of.
  destruct (read (ObjectName e)) as [ty|]; [|done]. simpl.
  destruct (extract_properties ty e); [|done]. simpl.
  destruct (read (Handle e)); [|done]. simpl.
  destruct (read (Layer e)); [|done]. simpl. by intros [= <-].
Qed.

Lemma type_tags_split entities t :
  length (filter (λ ty, ty = t) (omap (λ e, read (ObjectName e)) entities)) =
    length (filter (λ v, ev_type v = t) (omap capture entities)) +
    length (filter (λ ty, ty = t)
              (omap (λ e, match capture e with
                          | Some _ => None
                          | None => read (ObjectName e)
                          end) entities)).
Proof.
  induction entities as [|e l IH]; [done|]. simpl.
  destruct (capture e) as [v|] eqn:Hc.
  - rewrite (capture_type _ _ Hc). simpl. rewrite !filter_cons.
    repeat case_decide; simplify_eq; simpl; unfold omap in *; lia.
  - destruct (read (ObjectName e)) as [ty|]; simpl; [|done].
    rewrite !filter_cons. repeat case_decide; simpl; unfold omap in *; lia.
Qed.

Lemma type_tags_length entities :
  length (omap (λ e, read (ObjectName e)) entities) =
    length (omap capture entities) +
    length (omap (λ e, match capture e with
                       | Some _ => None
                       | None => read (ObjectName e)
                       end) entities).
Proof.
  induction entities as [|e l IH]; [done|]. simpl.
  destruct (capture e) as [v|] eqn:Hc.
  - rewrite (capture_type _ _ Hc). simpl. unfold omap in *; lia.
  - destruct (read (ObjectName e)); simpl; unfold omap in *; lia.
Qed.

Lemma omap_filter_length {A B} (f : A → option B) (l : list A) :
  length (omap f l) + length (filter (λ x, f x = None) l) = length l.
Proof.
  induction l as [|x l IH]; [done|]. simpl. rewrite filter_cons.
  destruct (f x) eqn:Hf; case_decide; simplify_eq; simpl;
    unfold omap in *; lia.
Qed.

(** ** C9 *)

(** C9: a scan called while no document is open returns the
    no-open-document outcome and leaves the store exactly as it was: the
    check of the document comes before the delete of the stored records. *)
Theorem scan_without_document_keeps_store (db : store) :
  scan_all_entities NoDocument db = (ScanNoDocument, db).
Proof. reflexivity. Qed.

(** ** C4 *)

(** C4: when exactly one of the N entities of the open document raises in
    the loop body, the scan still ends with its normal report, the reported
    count is N - 1, and the N - 1 readable entities are the ones handed to
    the store. *)
Theorem scan_skips_one_failing_entity (doc : document) (db : store) :
  length (filter (λ e, capture e = None) (ModelSpace doc)) = 1 →
  ∃ entity_types,
    (scan_all_entities (Active doc) db).1 =
      Scanned (length (ModelSpace doc) - 1) entity_types ∧
    length (captured doc) = length (ModelSpace doc) - 1 ∧
    row_content <$> cad_elements (scan_all_entities (Active doc) db).2 =
      keep_last content_key (bound_content <$> captured doc).
Proof.
  intros Hone. pose proof (omap_filter_length capture (ModelSpace doc)) as Hlen.
  destruct (scan_foldl (ModelSpace doc)
              {| sc_rows := []; sc_count := 0; sc_types := ∅ |})
    as (_ & Hc & _). simpl in Hc.
  exists (sc_types (scan_loop (ModelSpace doc))). simpl. split_and!.
  - f_equal. unfold scan_loop. rewrite Hc. lia.
  - unfold captured. lia.
  - apply scan_loop_rows.
Qed.

(** ** Sample drawings *)

Definition empty_store : store := {| cad_elements := []; text_patterns := [] |}.

(** An object none of whose attributes can be read. *)
Definition opaque_entity : com_entity :=
  {| ObjectName := Broken; Handle := Broken; Layer := Broken; Color := Broken;
     locked := false;
     StartPoint := Missing; EndPoint := Missing; Center := Missing;
     Radius := Missing; TextString := Missing; InsertionPoint := Missing;
     Height := Missing |}.

Definition line_entity (h : string) (s e : point) : com_entity :=
  {| ObjectName := Has "AcDbLine"; Handle := Has (Some h); Layer := Has "0";
     Color := Has 256%Z; locked := false;
     StartPoint := Has s; EndPoint := Has e; Center := Missing;
     Radius := Missing; TextString := Missing; InsertionPoint := Missing;
     Height := Missing |}.

Definition text_entity (h text : string) : com_entity :=
  {| ObjectName := Has "AcDbText"; Handle := Has (Some h); Layer := Has "0";
     Color := Has 256%Z; locked := false;
     StartPoint := Missing; EndPoint := Missing; Center := Missing;
     Radius := Missing; TextString := Has text;
     InsertionPoint := Has (0, 0, 0)%Z; Height := Has 2%Z |}.

(** A line whose type tag reads but whose start point raises. *)
Definition damaged_line : com_entity :=
  {| ObjectName := Has "AcDbLine"; Handle := Has (Some "2B"); Layer := Has "0";
     Color := Has 256%Z; locked := false;
     StartPoint := Broken; EndPoint := Has (1, 1, 0)%Z; Center := Missing;
     Radius := Missing; TextString := Missing; InsertionPoint := Missing;
     Height := Missing |}.

(** The same entity on a locked layer: reads succeed, writes raise. *)
Definition lock (e : com_entity) : com_entity :=
  {| ObjectName := ObjectName e; Handle := Handle e; Layer := Layer e;
     Color := Color e; locked := true;
     StartPoint := StartPoint e; EndPoint := EndPoint e;
     Center := Center e; Radius := Radius e;
     TextString := TextString e; InsertionPoint := InsertionPoint e;
     Height := Height e |}.

Definition drawing (entities : list com_entity) : document :=
  {| Name := Has "Drawing1.dwg"; ModelSpace := entities; SelectionSets := ∅ |}.

(** ** C5 *)

(** The report as C5 words it: the total counts the captured entities and
    the histogram counts, per tag, the captured entities of that tag, so
    that its counts add up to the total. *)
Definition reports_captured_only (doc : document) (r : scan_result) : Prop :=
  ∃ entity_types,
    r = Scanned (length (captured doc)) entity_types ∧
    (∀ t, default 0 (entity_types !! t) =
          length (filter (λ v, ev_type v = t) (captured doc))) ∧
    histogram_total entity_types = length (captured doc).

(** C5, as stated, fails: a line whose type tag reads and whose start point
    raises is counted in the histogram and not in the total. *)
Lemma scan_histogram_counts_uncaptured :
  (scan_all_entities (Active (drawing [damaged_line])) empty_store).1 =
    Scanned 0 {["AcDbLine" := 1]} ∧
  ¬ reports_captured_only (drawing [damaged_line])
      (scan_all_entities (Active (drawing [damaged_line])) empty_store).1.
Proof.
  assert ((scan_all_entities (Active (drawing [damaged_line])) empty_store).1 =
            Scanned 0 {["AcDbLine" := 1]}) as Hrun by reflexivity.
  split; [done|]. rewrite Hrun.
  intros (m & [= <-] & Hlookup & _).
  specialize (Hlookup "AcDbLine"). by vm_compute in Hlookup.
Qed.

(** C5, amended: the reported total is the number of captured entities,
    which is at least the number of rows the table holds afterwards; the
    histogram counts, per tag, the captured entities of that tag plus the
    entities of that tag dropped after their tag was read, and its counts
    add up to the total plus the number of entities so dropped; a drawing
    without entities gives the total 0 and the empty histogram. *)
Theorem scan_report (doc : document) (db : store) (name : attr string)
    (sets : gmap string (list nat)) :
  (∃ entity_types,
     (scan_all_entities (Active doc) db).1 =
       Scanned (length (captured doc)) entity_types ∧
     (∀ t, default 0 (entity_types !! t) =
           length (filter (λ v, ev_type v = t) (captured doc)) +
           length (filter (λ ty, ty = t) (dropped_after_tag doc))) ∧
     histogram_total entity_types =
       length (captured doc) + length (dropped_after_tag doc)) ∧
  length (cad_elements (scan_all_entities (Active doc) db).2)
    ≤ length (captured doc) ∧
  (scan_all_entities
     (Active {| Name := name; ModelSpace := []; SelectionSets := sets |}) db).1 =
    Scanned 0 ∅.
Proof.
  destruct (scan_foldl (ModelSpace doc)
              {| sc_rows := []; sc_count := 0; sc_types := ∅ |})
    as (_ & Hc & Ht). simpl in Hc, Ht.
  destruct (histogram_foldl (omap (λ e, read (ObjectName e)) (ModelSpace doc)) ∅)
    as [Hlookup Htotal]. simpl in Hlookup, Htotal.
  split_and!; [|simpl|done].
  - exists (sc_types (scan_loop (ModelSpace doc))). simpl. unfold scan_loop.
    rewrite Hc, Ht. split_and!; [done| |].
    + intros t. rewrite Hlookup, lookup_empty. simpl.
      apply type_tags_split.
    + rewrite Htotal. unfold histogram_total at 1. rewrite map_fold_empty.
      simpl. apply type_tags_length.
  - destruct (scan_loop_rows (ModelSpace doc)) as [Hrows _].
    rewrite <-(length_fmap row_content), Hrows.
    etrans; [apply length_keep_last|]. by rewrite length_fmap.
Qed.

(** ** C2 *)

(** C2: after a scan the non-NULL handles of the stored records are
    pairwise different; with a document open, the table holds the captured
    records and nothing of its previous content, and of the captured
    records that share a handle only the last one; without a document the
    store is the one the scan found. *)
Theorem scan_replaces_population (acad : application) (db : store) :
  unique_column ce_handle (cad_elements db) →
  unique_column ce_handle (cad_elements (scan_all_entities acad db).2) ∧
  match acad with
  | Active doc =>
      row_content <$> cad_elements (scan_all_entities acad db).2 =
        keep_last content_key (bound_content <$> captured doc)
  | NoDocument | Unavailable => (scan_all_entities acad db).2 = db
  end.
Proof.
  intros Hu. destruct acad as [| |doc]; simpl; [done..|].
  destruct (scan_loop_rows (ModelSpace doc)) as [Hrows Huniq]. done.
Qed.

Lemma scan_replaces_population_witness :
  let doc := drawing [line_entity "1A" (0, 0, 0)%Z (1, 0, 0)%Z;
                      line_entity "1A" (5, 5, 0)%Z (6, 5, 0)%Z;
                      text_entity "3C" "PMC-3M"] in
  let db := {| cad_elements :=
                 [ {| ce_id := 7; ce_handle := Some "9Z"; ce_name := "Circle";
                      ce_type := "AcDbCircle"; ce_layer := Some "0";
                      ce_properties := None |} ];
               text_patterns := [] |} in
  unique_column ce_handle (cad_elements (scan_all_entities (Active doc) db).2) ∧
  row_content <$> cad_elements (scan_all_entities (Active doc) db).2 =
    keep_last content_key (bound_content <$> captured doc).
Proof.
  intros doc db. apply (scan_replaces_population (Active doc) db).
  unfold unique_column. simpl. apply NoDup_singleton.
Defined.

Lemma scan_skips_one_failing_entity_witness :
  let doc := drawing [line_entity "1A" (0, 0, 0)%Z (1, 0, 0)%Z;
                      damaged_line;
                      text_entity "3C" "PMC-3M"] in
  ∃ entity_types,
    (scan_all_entities (Active doc) empty_store).1 = Scanned (3 - 1) entity_types ∧
    length (captured doc) = 3 - 1 ∧
    row_content <$> cad_elements (scan_all_entities (Active doc) empty_store).2 =
      keep_last content_key (bound_content <$> captured doc).
Proof.
  intros doc. apply (scan_skips_one_failing_entity doc empty_store).
  reflexivity.
Defined.

(** ** The pattern counter *)

(** The test of the loop body: the entity has a text and the pattern occurs
    in it. *)
Definition text_matches (pattern : string) (entity : com_entity) : bool :=
  match hasattr (TextString entity), read (TextString entity) with
  | Some true, Some text => contains pattern text
  | _, _ => false
  end.

Definition matching_count (pattern : string) (doc : document) : nat :=
  length (filter (λ e, text_matches pattern e = true) (ModelSpace doc)).

(** The counts stored for a pattern, one per row carrying it. *)
Definition pattern_counts (pattern : string) (db : store) : list (option Z) :=
  tp_count <$> filter (λ r, tp_pattern r = Some pattern) (text_patterns db).

Lemma count_entity_count pattern s e :
  (count_entity pattern s e).1 =
    s.1 + (if text_matches pattern e then 1 else 0).
Proof.
  unfold count_entity, text_matches.
  destruct (hasattr (TextString e)) as [[]|]; simpl; try lia.
  destruct (read (TextString e)) as [text|]; simpl; try lia.
  destruct (contains pattern text); simpl; [|lia].
  by destruct (match_details text e).
Qed.

Lemma count_loop_count pattern entities s :
  (foldl (count_entity pattern) s entities).1 =
    s.1 + length (filter (λ e, text_matches pattern e = true) entities).
Proof.
  revert s. induction entities as [|e l IH]; intros s; simpl; [lia|].
  rewrite IH, count_entity_count, filter_cons.
  destruct (text_matches pattern e); case_decide; simpl; try done; lia.
Qed.

Lemma without_conflicts_no_match {C} (key : C → option string) h t :
  filter (λ r, key r = Some h) (without_conflicts key (Some h) t) = [].
Proof.
  unfold without_conflicts. induction t as [|r t IH]; [done|].
  rewrite filter_cons. case_decide as Hc; [|done].
  rewrite filter_cons. case_decide as Hk; [|done].
  rewrite Hk in Hc. simpl in Hc. by rewrite bool_decide_eq_false in Hc.
Qed.

Lemma insert_or_replace_pattern_counts pattern count drawing_name db_c db_p :
  pattern_counts pattern
    {| cad_elements := db_c;
       text_patterns := insert_or_replace_pattern pattern count drawing_name db_p |}
  = [Some (Z.of_nat count)].
Proof.
  unfold pattern_counts, insert_or_replace_pattern. simpl.
  rewrite filter_app, without_conflicts_no_match, filter_cons. simpl.
  by case_decide.
Qed.

Lemma count_text_patterns_active doc db pattern drawing_name :
  read (Name doc) = Some drawing_name →
  ∃ shown more,
    count_text_patterns (Active doc) db pattern =
      (Counted (matching_count pattern doc) drawing_name shown more,
       {| cad_elements := cad_elements db;
          text_patterns :=
            insert_or_replace_pattern pattern (matching_count pattern doc)
              drawing_name (text_patterns db) |}).
Proof.
  intros Hn. unfold count_text_patterns. rewrite Hn.
  pose proof (count_loop_count pattern (ModelSpace doc) (0, [])) as Hc.
  unfold count_loop. destruct (foldl _ _ _) as [count ms]. simpl in Hc.
  subst count. eauto.
Qed.

Lemma count_text_patterns_unique acad db pattern :
  unique_column tp_pattern (text_patterns db) →
  unique_column tp_pattern (text_patterns (count_text_patterns acad db pattern).2).
Proof.
  intros Hu. destruct acad as [| |doc]; [done..|].
  destruct (read (Name doc)) as [nm|] eqn:Hn.
  - destruct (count_text_patterns_active doc db pattern nm Hn)
      as (shown & more & ->). simpl.
    apply (unique_column_insert tp_pattern
             {| tp_id := _; tp_pattern := Some pattern; tp_count := _;
                tp_drawing := _ |}), Hu.
  - unfold count_text_patterns. by rewrite Hn.
Qed.

(** ** C6 *)

(** C6: the patterns stored stay pairwise different under every call of
    the counter, and two calls for one pattern, on two states of the
    drawing, leave exactly one row for it, holding after each call the
    number of matching entities of the drawing that call saw. *)
Theorem pattern_count_is_overwritten (acad : application) (db : store)
    (pattern : string) (doc1 doc2 : document) (name1 name2 : string) :
  unique_column tp_pattern (text_patterns db) →
  read (Name doc1) = Some name1 →
  read (Name doc2) = Some name2 →
  let db1 := (count_text_patterns (Active doc1) db pattern).2 in
  let db2 := (count_text_patterns (Active doc2) db1 pattern).2 in
  unique_column tp_pattern
    (text_patterns (count_text_patterns acad db pattern).2) ∧
  unique_column tp_pattern (text_patterns db2) ∧
  pattern_counts pattern db1 = [Some (Z.of_nat (matching_count pattern doc1))] ∧
  pattern_counts pattern db2 = [Some (Z.of_nat (matching_count pattern doc2))].
Proof.
  intros Hu Hn1 Hn2 db1 db2. split_and!.
  - by apply count_text_patterns_unique.
  - by do 2 apply count_text_patterns_unique.
  - unfold db1.
    destruct (count_text_patterns_active doc1 db pattern name1 Hn1)
      as (? & ? & ->). apply insert_or_replace_pattern_counts.
  - unfold db2.
    destruct (count_text_patterns_active doc2 db1 pattern name2 Hn2)
      as (? & ? & ->). apply insert_or_replace_pattern_counts.
Qed.

Lemma pattern_count_is_overwritten_witness :
  let doc1 := drawing [text_entity "1A" "PMC-3M pump"; text_entity "2B" "PMC-3M valve";
                       line_entity "3C" (0, 0, 0)%Z (1, 0, 0)%Z] in
  let doc2 := drawing [text_entity "1A" "PMC-3M pump"; text_entity "2B" "spare"] in
  let db1 := (count_text_patterns (Active doc1) empty_store "PMC-3M").2 in
  let db2 := (count_text_patterns (Active doc2) db1 "PMC-3M").2 in
  pattern_counts "PMC-3M" db1 = [Some 2%Z] ∧
  pattern_counts "PMC-3M" db2 = [Some 1%Z].
Proof.
  intros doc1 doc2 db1 db2.
  destruct (pattern_count_is_overwritten NoDocument empty_store "PMC-3M"
              doc1 doc2 "Drawing1.dwg" "Drawing1.dwg")
    as (_ & _ & H1 & H2);
    [apply NoDup_nil_2 | reflexivity | reflexivity |].
  split; [exact H1 | exact H2].
Defined.

(** ** Resolution and the highlight loop *)

(** A fixed result set, whatever the text: the engine of the examples. *)
Definition fixed_result (columns : list string) (rows : list (list sql_value))
    : sql_engine :=
  λ db _, ExecOk (Some columns) rows (-1) db.

Lemma temp_name_not_query_results raw : temp_name raw ≠ "QueryResults".
Proof. unfold temp_name. simpl. discriminate. Qed.

Lemma select_from_ext i h (l1 l2 : list com_entity) :
  Handle <$> l1 = Handle <$> l2 →
  select_from i h l1 = select_from i h l2.
Proof.
  revert i l2. induction l1 as [|e1 l1 IH]; intros i [|e2 l2] [=]; [done|].
  simpl. replace (Handle e2) with (Handle e1) by done.
  rewrite (IH (S i) l2) by done. done.
Qed.

Lemma select_from_lookup i h l j :
  j ∈ select_from i h l → i ≤ j ∧ is_Some (l !! (j - i)).
Proof.
  revert i. induction l as [|e l IH]; intros i; simpl; [by intros ?%elem_of_nil|].
  assert (j ∈ select_from (S i) h l → i ≤ j ∧ is_Some ((e :: l) !! (j - i))).
  { intros [? ?]%IH. split; [lia|].
    by replace (j - i) with (S (j - S i)) by lia. }
  destruct (Handle e) as [| |[h'|]]; try done.
  case_bool_decide; [|done].
  intros [->|?]%elem_of_cons; [|by auto].
  split; [done|]. replace (i - i) with 0 by lia. simpl. eauto.
Qed.

(** The loop changes colours and selection sets only. *)
Definition same_identity (doc doc' : document) : Prop :=
  Handle <$> ModelSpace doc' = Handle <$> ModelSpace doc ∧
  locked <$> ModelSpace doc' = locked <$> ModelSpace doc.

Lemma select_value_same_identity doc doc' h :
  same_identity doc doc' → select_value h doc' = select_value h doc.
Proof.
  intros [Hh _]. destruct h; simpl; try done.
  by apply select_from_ext.
Qed.

Definition no_temp_names (rng : nat → N) (doc : document) : Prop :=
  ∀ k, SelectionSets doc !! temp_name (rng k) = None.

Definition unlocked (doc : document) : Prop :=
  Forall (λ e, locked e = false) (ModelSpace doc).

Lemma unlocked_same_identity doc doc' :
  same_identity doc doc' → unlocked doc → unlocked doc'.
Proof.
  unfold unlocked. intros [_ Hl] Hu. rewrite Forall_lookup in *.
  intros i e' He'.
  assert ((locked <$> ModelSpace doc') !! i = Some (locked e')) as Hi
    by by rewrite list_lookup_fmap, He'.
  rewrite Hl, list_lookup_fmap in Hi.
  destruct (ModelSpace doc !! i) as [e|] eqn:He; [|done].
  simpl in Hi. injection Hi as <-. by eapply Hu.
Qed.

Lemma same_identity_trans d1 d2 d3 :
  same_identity d1 d2 → same_identity d2 d3 → same_identity d1 d3.
Proof. intros [? ?] [? ?]. split; congruence. Qed.


(** The first entity the handle selects, when there is one. *)
Definition first_match (doc : document) (h : sql_value) : option com_entity :=
  i ← head (select_value h doc); ModelSpace doc !! i.

(** The row resolves to an entity whose colour can be written. *)
Definition writable_match (doc : document) (h : sql_value) : bool :=
  match first_match doc h with
  | Some e => negb (locked e)
  | None => false
  end.

(** The row resolves to a locked entity. *)
Definition locked_match (doc : document) (h : sql_value) : bool :=
  match first_match doc h with
  | Some e => locked e
  | None => false
  end.

Lemma first_match_locked_same_identity doc doc' h :
  same_identity doc doc' →
  locked <$> first_match doc' h = locked <$> first_match doc h.
Proof.
  intros Hid. unfold first_match.
  rewrite (select_value_same_identity doc doc' h Hid).
  destruct (head (select_value h doc)) as [i|]; [|done]. simpl.
  destruct Hid as [_ Hl].
  by rewrite <-!list_lookup_fmap, Hl.
Qed.

Lemma writable_match_same_identity doc doc' h :
  same_identity doc doc' → writable_match doc' h = writable_match doc h.
Proof.
  intros Hid. unfold writable_match.
  pose proof (first_match_locked_same_identity doc doc' h Hid) as Hl.
  destruct (first_match doc' h), (first_match doc h); simplify_eq/=; congruence.
Qed.

Lemma locked_match_same_identity doc doc' h :
  same_identity doc doc' → locked_match doc' h = locked_match doc h.
Proof.
  intros Hid. unfold locked_match.
  pose proof (first_match_locked_same_identity doc doc' h Hid) as Hl.
  destruct (first_match doc' h), (first_match doc h); simplify_eq/=; congruence.
Qed.

Lemma select_value_lookup h doc i found :
  select_value h doc = i :: found → is_Some (ModelSpace doc !! i).
Proof.
  intros Hsel. destruct h as [| |h| |]; simpl in Hsel; try done.
  destruct (select_from_lookup 0 h (ModelSpace doc) i) as [_ Hi].
  { unfold select_by_handle in Hsel. rewrite Hsel. apply elem_of_cons. auto. }
  by rewrite Nat.sub_0_r in Hi.
Qed.

(** One iteration, when its scratch name is free. *)
Lemma highlight_handle_any color raw doc n h :
  SelectionSets doc !! temp_name raw = None →
  ∃ doc',
    highlight_handle color raw (doc, n) h
      = (doc', n + (if writable_match doc h then 1 else 0)) ∧
    same_identity doc doc' ∧
    SelectionSets doc' !! temp_name raw
      = (if locked_match doc h then Some (select_value h doc) else None) ∧
    ∀ name, name ≠ temp_name raw → name ≠ "QueryResults" →
            SelectionSets doc' !! name = SelectionSets doc !! name.
Proof.
  intros Hfree. unfold highlight_handle, add_selection_set.
  rewrite Hfree. simpl.
  assert (select_value h
            (with_sets (<[temp_name raw:=[]]> (SelectionSets doc)) doc)
          = select_value h doc) as -> by by destruct h.
  unfold writable_match, locked_match, first_match.
  destruct (select_value h doc) as [|i found] eqn:Hsel; simpl.
  - eexists. split_and!; [by rewrite Nat.add_0_r|done| |]; simpl.
    + by rewrite lookup_delete_eq.
    + intros name Hn _. by rewrite lookup_delete_ne, !lookup_insert_ne.
  - destruct (select_value_lookup h doc i found Hsel) as [e He].
    unfold set_color. simpl. rewrite He. simpl.
    destruct (locked e) eqn:Hl; simpl.
    + eexists. split_and!; [by rewrite Nat.add_0_r|done| |]; simpl.
      * by rewrite insert_insert_eq, lookup_insert_eq.
      * intros name Hn _. by rewrite !lookup_insert_ne.
    + eexists. split_and!; [done| | |].
      * unfold same_identity, add_item. simpl.
        destruct (_ !! "QueryResults"); [case_bool_decide|]; simpl;
          rewrite !list_fmap_insert; simpl;
          (split; apply list_insert_id; by rewrite list_lookup_fmap, He).
      * simpl. by rewrite lookup_delete_eq.
      * intros name Hn Hq. simpl. rewrite lookup_delete_ne by done.
        unfold add_item. simpl.
        destruct (_ !! "QueryResults"); [case_bool_decide|]; simpl;
          by rewrite ?(lookup_insert_ne _ "QueryResults") by done;
          rewrite !lookup_insert_ne.
Qed.

Lemma highlight_loop_any color rng handles k doc n :
  NoDup ((λ j, temp_name (rng j)) <$> seq k (length handles)) →
  (∀ j, j ∈ seq k (length handles) →
        SelectionSets doc !! temp_name (rng j) = None) →
  ∃ doc',
    highlight_loop color rng k handles (doc, n)
      = (doc', n + length (filter (λ h, writable_match doc h = true) handles)) ∧
    same_identity doc doc' ∧
    (∀ name,
       name ∉ (λ j, temp_name (rng j)) <$> seq k (length handles) →
       name ≠ "QueryResults" →
       SelectionSets doc' !! name = SelectionSets doc !! name) ∧
    ∀ j h, handles !! j = Some h →
      SelectionSets doc' !! temp_name (rng (k + j))
        = (if locked_match doc h then Some (select_value h doc) else None).
Proof.
  revert k doc n. induction handles as [|h l IH]; intros k doc n Hnd Hfree;
    cbn [highlight_loop].
  { exists doc. simpl. split_and!; [by rewrite Nat.add_0_r|done|done|done]. }
  simpl in Hnd. apply NoDup_cons in Hnd as [Hk Hnd].
  destruct (highlight_handle_any color (rng k) doc n h)
    as (doc1 & -> & Hid & Hleft & Hother).
  { apply Hfree. simpl. left. }
  pose proof (temp_name_not_query_results) as Hq.
  destruct (IH (S k) doc1 (n + if writable_match doc h then 1 else 0) Hnd)
    as (doc' & -> & Hid' & Hother' & Hleft').
  { intros j Hj. rewrite Hother; [|intros Heq|apply Hq].
    - apply Hfree. simpl. by right.
    - apply Hk. rewrite <-Heq. by apply (list_elem_of_fmap_2 (λ j, temp_name (rng j))). }
  exists doc'. split_and!.
  - f_equal. rewrite filter_cons.
    assert (filter (λ h0, writable_match doc1 h0 = true) l
            = filter (λ h0, writable_match doc h0 = true) l) as ->.
    { apply list_filter_iff. intros h0.
      by rewrite (writable_match_same_identity doc doc1). }
    destruct (writable_match doc h); [rewrite decide_True by done|
                                      rewrite decide_False by done]; simpl; lia.
  - by eapply same_identity_trans.
  - intros name Hname Hqr. simpl in Hname.
    apply not_elem_of_cons in Hname as [Hne Hname].
    rewrite Hother' by done. by apply Hother.
  - intros [|j] h' Hj; simpl in Hj.
    + injection Hj as <-. rewrite Nat.add_0_r.
      rewrite Hother' by (done || apply Hq). done.
    + rewrite Nat.add_succ_r. specialize (Hleft' j h' Hj). simpl in Hleft'.
      rewrite Hleft', (locked_match_same_identity doc doc1) by done.
      by rewrite (select_value_same_identity doc doc1).
Qed.



(** One iteration, whatever the state of the scratch names: the count goes
    up by one at most, and only for a row that resolves to an entity whose
    colour can be written. *)
Lemma highlight_handle_bound color raw doc n h :
  ∃ doc' n',
    highlight_handle color raw (doc, n) h = (doc', n') ∧
    n ≤ n' ∧ n' ≤ n + (if writable_match doc h then 1 else 0) ∧
    same_identity doc doc'.
Proof.
  destruct (SelectionSets doc !! temp_name raw) as [members|] eqn:Hname.
  - exists doc, n. unfold highlight_handle, add_selection_set. rewrite Hname.
    split_and!; [done|lia|lia|done].
  - destruct (highlight_handle_any color raw doc n h Hname)
      as (doc' & -> & Hid & _).
    eexists _, _. split_and!; [done| |done|done].
    destruct (writable_match doc h); lia.
Qed.

Lemma highlight_loop_bound color rng handles k doc n :
  ∃ doc' n',
    highlight_loop color rng k handles (doc, n) = (doc', n') ∧
    n ≤ n' ∧
    n' ≤ n + length (filter (λ h, writable_match doc h = true) handles) ∧
    same_identity doc doc'.
Proof.
  revert k doc n. induction handles as [|h l IH]; intros k doc n;
    cbn [highlight_loop].
  { exists doc, n. simpl. split_and!; [done|lia|lia|done]. }
  destruct (highlight_handle_bound color (rng k) doc n h)
    as (doc1 & n1 & -> & Hlo & Hhi & Hid).
  destruct (IH (S k) doc1 n1) as (doc' & n' & -> & Hlo' & Hhi' & Hid').
  exists doc', n'. split_and!; [done|lia| |by eapply same_identity_trans].
  rewrite filter_cons.
  assert (filter (λ h0, writable_match doc1 h0 = true) l
          = filter (λ h0, writable_match doc h0 = true) l) as Heq.
  { apply list_filter_iff. intros h0.
    by rewrite (writable_match_same_identity doc doc1). }
  rewrite Heq in Hhi'.
  destruct (writable_match doc h); [rewrite decide_True by done|
                                    rewrite decide_False by done]; simpl; lia.
Qed.

(** The correlator on a result set with rows and a handle column, whatever
    the generator draws and whatever selection sets the document holds: the
    call ends with a count or with the nothing-highlighted answer, and the
    count is at most the number of rows whose handle resolves to an entity
    whose colour can be written. *)
Lemma query_and_highlight_bound sqlite rng db doc sql_query color
    columns row rows rowcount db' handle_index handles :
  sqlite db sql_query = ExecOk (Some columns) (row :: rows) rowcount db' →
  find_handle 0 columns = Some handle_index →
  extract_handles handle_index (row :: rows) = Some handles →
  ∃ doc' n,
    n ≤ length (filter (λ h, writable_match doc h = true) handles) ∧
    same_identity doc doc' ∧
    query_and_highlight sqlite rng db (Active doc) sql_query color =
      (if decide (0 < n)
       then HighlightedRows n (length (row :: rows))
       else NoneHighlighted,
       Active doc').
Proof.
  intros Hexec Hfind Hext. unfold query_and_highlight.
  rewrite Hexec, Hfind, Hext. unfold highlight_handles.
  set (doc0 := with_sets _ doc).
  assert (same_identity doc doc0) as Hid0 by done.
  destruct (highlight_loop_bound color rng handles 0 doc0 0)
    as (doc1 & n & -> & _ & Hhi & Hid1).
  assert (filter (λ h, writable_match doc0 h = true) handles
          = filter (λ h, writable_match doc h = true) handles) as Heq.
  { apply list_filter_iff. intros h.
    by rewrite (writable_match_same_identity doc doc0). }
  rewrite Heq in Hhi.
  unfold extract_handles in Hext. rewrite <-(length_mapM _ _ _ Hext).
  simpl in Hhi. case_decide.
  - exists doc1, n. rewrite decide_True by done.
    split_and!; [done|by eapply same_identity_trans|done].
  - eexists _, n. rewrite decide_False by done.
    split_and!; [done| |done].
    destruct Hid1 as [? ?]. by split.
Qed.

(** The same, when the scratch names the call draws are pairwise different
    and none of them is taken: the count is exactly the number of rows
    whose handle resolves to an entity whose colour can be written, and the
    scratch sets left in the document are those of the rows that resolve to
    a locked entity. *)
Lemma query_and_highlight_any sqlite rng db doc sql_query color
    columns row rows rowcount db' handle_index handles :
  sqlite db sql_query = ExecOk (Some columns) (row :: rows) rowcount db' →
  find_handle 0 columns = Some handle_index →
  extract_handles handle_index (row :: rows) = Some handles →
  NoDup ((λ j, temp_name (rng j)) <$> seq 0 (length handles)) →
  (∀ j, j < length handles → SelectionSets doc !! temp_name (rng j) = None) →
  ∃ doc',
    same_identity doc doc' ∧
    query_and_highlight sqlite rng db (Active doc) sql_query color =
      (let n := length (filter (λ h, writable_match doc h = true) handles) in
       if decide (0 < n)
       then HighlightedRows n (length (row :: rows))
       else NoneHighlighted,
       Active doc') ∧
    ∀ j h, handles !! j = Some h →
      SelectionSets doc' !! temp_name (rng j)
        = (if locked_match doc h then Some (select_value h doc) else None).
Proof.
  intros Hexec Hfind Hext Hnd Hfree. unfold query_and_highlight.
  rewrite Hexec, Hfind, Hext. unfold highlight_handles.
  set (doc0 := with_sets _ doc).
  assert (same_identity doc doc0) as Hid0 by done.
  pose proof (temp_name_not_query_results) as Hq.
  destruct (highlight_loop_any color rng handles 0 doc0 0 Hnd)
    as (doc1 & -> & Hid1 & _ & Hleft).
  { intros j [_ Hj]%elem_of_seq. unfold doc0. simpl.
    rewrite lookup_insert_ne, lookup_delete_ne by (symmetry; apply Hq).
    apply Hfree. lia. }
  assert (filter (λ h, writable_match doc0 h = true) handles
          = filter (λ h, writable_match doc h = true) handles) as ->.
  { apply list_filter_iff. intros h.
    by rewrite (writable_match_same_identity doc doc0). }
  unfold extract_handles in Hext. rewrite <-(length_mapM _ _ _ Hext).
  assert (∀ j h, handles !! j = Some h →
            SelectionSets doc1 !! temp_name (rng j)
            = (if locked_match doc h then Some (select_value h doc) else None))
    as Hleft0.
  { intros j h Hj. specialize (Hleft j h Hj). simpl in Hleft. rewrite Hleft.
    by rewrite (locked_match_same_identity doc doc0),
               (select_value_same_identity doc doc0). }
  simpl. case_decide; eexists; (split; [|split; [done|]]).
  - by eapply same_identity_trans.
  - done.
  - destruct Hid1 as [? ?]. by split.
  - intros j h Hj. simpl. rewrite lookup_delete_ne by (symmetry; apply Hq).
    by apply Hleft0.
Qed.

(** ** C1 *)

(** C1 as stated: whenever the result set has no column named [handle],
    whatever its case, the correlator answers with the no-handle-column
    outcome. *)
Definition missing_handle_is_shape_error (sqlite : sql_engine)
    (sql_query : string) : Prop :=
  ∀ rng db acad color columns rows rowcount db',
    sqlite db sql_query = ExecOk (Some columns) rows rowcount db' →
    Forall (λ name, lower name ≠ "handle") columns →
    query_and_highlight sqlite rng db acad sql_query color
      = (NoHandleColumn, acad).

(** C1, as stated, fails: on a result set without rows the correlator
    answers that the query returned no results, handle column or not. *)
Lemma empty_result_hides_missing_handle :
  query_and_highlight (fixed_result ["id"; "name"] []) (λ _, 0%N) empty_store
    NoDocument "SELECT id, name FROM cad_elements" 1
    = (NoResults, NoDocument) ∧
  ¬ missing_handle_is_shape_error (fixed_result ["id"; "name"] [])
      "SELECT id, name FROM cad_elements".
Proof.
  split; [done|]. intros Hclaim.
  specialize (Hclaim (λ _, 0%N) empty_store NoDocument 1%Z
                ["id"; "name"] [] (-1)%Z empty_store eq_refl).
  discriminate Hclaim. repeat constructor; by vm_compute.
Qed.

Lemma find_handle_none i columns :
  Forall (λ name, lower name ≠ "handle") columns →
  find_handle i columns = None.
Proof.
  intros H. revert i. induction H as [|name l Hn _ IH]; intros i; [done|].
  simpl. rewrite bool_decide_eq_false_2 by done. apply IH.
Qed.

(** C1, amended: when the result set has at least one row and none of its
    columns is named [handle], whatever its case, the correlator answers
    with the no-handle-column outcome and returns the application as it
    found it, no colour and no selection set touched; that answer differs
    from the one for a result set without rows, which is given whenever
    there are no rows, whatever the columns are, a handle column among them
    or not, again with the application untouched. *)
Theorem missing_handle_column_is_reported (sqlite : sql_engine)
    (rng : nat → N) (db : store) (acad : application) (sql_query : string)
    (color : Z) (description : option (list string))
    (rows : list (list sql_value)) (rowcount : Z) (db' : store) :
  sqlite db sql_query = ExecOk description rows rowcount db' →
  (rows = [] →
   query_and_highlight sqlite rng db acad sql_query color = (NoResults, acad)) ∧
  (∀ columns,
     description = Some columns → rows ≠ [] →
     Forall (λ name, lower name ≠ "handle") columns →
     query_and_highlight sqlite rng db acad sql_query color
       = (NoHandleColumn, acad)) ∧
  correlate_message NoHandleColumn ≠ correlate_message NoResults.
Proof.
  intros Hexec. unfold query_and_highlight. rewrite Hexec. split_and!.
  - by intros ->.
  - intros columns -> Hrows Hcols. destruct rows; [done|].
    by rewrite find_handle_none.
  - done.
Qed.

Lemma missing_handle_column_is_reported_witness :
  query_and_highlight
    (fixed_result ["id"; "Name"] [[SqlInteger 1; SqlText "Line"]]) (λ _, 0%N)
    empty_store (Active (drawing [line_entity "1A" (0, 0, 0)%Z (1, 0, 0)%Z]))
    "SELECT id, name FROM cad_elements" 1
    = (NoHandleColumn,
       Active (drawing [line_entity "1A" (0, 0, 0)%Z (1, 0, 0)%Z])) ∧
  query_and_highlight
    (fixed_result ["id"; "handle"] []) (λ _, 0%N)
    empty_store (Active (drawing [line_entity "1A" (0, 0, 0)%Z (1, 0, 0)%Z]))
    "SELECT id, handle FROM cad_elements WHERE 0" 1
    = (NoResults,
       Active (drawing [line_entity "1A" (0, 0, 0)%Z (1, 0, 0)%Z])).
Proof.
  split.
  - destruct (missing_handle_column_is_reported
                (fixed_result ["id"; "Name"] [[SqlInteger 1; SqlText "Line"]])
                (λ _, 0%N) empty_store
                (Active (drawing [line_entity "1A" (0, 0, 0)%Z (1, 0, 0)%Z]))
                "SELECT id, name FROM cad_elements" 1%Z (Some ["id"; "Name"])
                [[SqlInteger 1; SqlText "Line"]] (-1)%Z empty_store eq_refl)
      as (_ & Hshape & _).
    apply (Hshape ["id"; "Name"] eq_refl).
    + discriminate.
    + repeat constructor; by vm_compute.
  - destruct (missing_handle_column_is_reported
                (fixed_result ["id"; "handle"] [])
                (λ _, 0%N) empty_store
                (Active (drawing [line_entity "1A" (0, 0, 0)%Z (1, 0, 0)%Z]))
                "SELECT id, handle FROM cad_elements WHERE 0" 1%Z
                (Some ["id"; "handle"]) [] (-1)%Z empty_store eq_refl)
      as (Hempty & _ & _).
    apply Hempty. reflexivity.
Defined.

(** ** C3 *)

Definition two_lines : document :=
  drawing [line_entity "1A" (0, 0, 0)%Z (1, 0, 0)%Z;
           line_entity "2B" (0, 1, 0)%Z (1, 1, 0)%Z;
           line_entity "3C" (0, 2, 0)%Z (1, 2, 0)%Z].

Definition locked_drawing : document :=
  drawing [lock (line_entity "2A" (0, 0, 0)%Z (1, 0, 0)%Z);
           line_entity "1A" (0, 1, 0)%Z (1, 1, 0)%Z].

Lemma drawing_free_names rng entities : no_temp_names rng (drawing entities).
Proof. intros k. apply lookup_empty. Qed.






(** ** C10 *)

(** C10 as stated: the count the correlator reports is the number of rows
    whose handle selects an entity of the open document. *)
Definition count_is_resolved_rows (sqlite : sql_engine) (rng : nat → N)
    (db : store) (doc : document) (sql_query : string) (color : Z) : Prop :=
  ∀ columns rows rowcount db' handle_index handles n total,
    sqlite db sql_query = ExecOk (Some columns) rows rowcount db' →
    find_handle 0 columns = Some handle_index →
    extract_handles handle_index rows = Some handles →
    (query_and_highlight sqlite rng db (Active doc) sql_query color).1
      = HighlightedRows n total →
    n = length (filter (λ h, select_value h doc ≠ []) handles).

(** C10, as stated, fails: a handle carried by three rows resolves to an
    entity on a locked layer; each of the three rows selects it, writing
    its colour raises each time and none of the three is counted.  With a
    fourth row that resolves to a writable entity the report is
    "highlighted 1 out of 4" although all four handles resolve. *)
Lemma locked_rows_resolve_uncounted :
  (query_and_highlight
     (fixed_result ["handle"]
        [[SqlText "2A"]; [SqlText "2A"]; [SqlText "2A"]; [SqlText "1A"]])
     (λ k, N.of_nat k) empty_store (Active locked_drawing)
     "SELECT handle FROM cad_elements" 1).1
    = HighlightedRows 1 4 ∧
  length (filter (λ h, select_value h locked_drawing ≠ [])
            [SqlText "2A"; SqlText "2A"; SqlText "2A"; SqlText "1A"])
    = 4 ∧
  (query_and_highlight
     (fixed_result ["handle"] [[SqlText "2A"]; [SqlText "2A"]; [SqlText "2A"]])
     (λ k, N.of_nat k) empty_store (Active locked_drawing)
     "SELECT handle FROM cad_elements" 1).1
    = NoneHighlighted ∧
  ¬ count_is_resolved_rows
      (fixed_result ["handle"]
         [[SqlText "2A"]; [SqlText "2A"]; [SqlText "2A"]; [SqlText "1A"]])
      (λ k, N.of_nat k) empty_store locked_drawing
      "SELECT handle FROM cad_elements" 1.
Proof.
  split_and!; [by vm_compute..|]. intros Hclaim.
  specialize (Hclaim ["handle"] _ (-1)%Z empty_store 0
                [SqlText "2A"; SqlText "2A"; SqlText "2A"; SqlText "1A"] 1 4
                eq_refl eq_refl eq_refl).
  assert (1 = 4) as [=]. rewrite Hclaim at 1; by vm_compute.
Qed.

Lemma repeated_handle_count (P : sql_value → bool) (h : sql_value)
    (handles : list sql_value) :
  P h = true →
  length (filter (λ h', h' = h) handles)
    ≤ length (filter (λ h', P h' = true) handles).
Proof.
  intros Hh. induction handles as [|a l IH]; [done|]. rewrite !filter_cons.
  destruct (decide (a = h)) as [->|Hne].
  - rewrite decide_True by done. simpl. lia.
  - case_decide; simpl; lia.
Qed.

(** C10, amended: the correlator handles one value per row and never merges
    equal handles.  On a result set with rows and a handle column the call
    ends with a count or with the nothing-highlighted answer, the count
    being at most the number of rows whose handle resolves to an entity
    whose colour can be written, and the identity of the entities is left
    alone.  When the scratch names the call draws are pairwise different
    and none of them is taken in the document, the count is exactly that
    number of rows (zero gives the nothing-highlighted answer): a handle
    that resolves to a writable entity is counted once for each row that
    carries it.  Three rows carrying one handle are counted three times
    although a single entity changes colour. *)
Theorem rows_are_counted_without_deduplication (sqlite : sql_engine)
    (rng : nat → N) (db : store) (doc : document) (sql_query : string)
    (color : Z) (columns : list string) (row : list sql_value)
    (rows : list (list sql_value)) (rowcount : Z) (db' : store)
    (handle_index : nat) (handles : list sql_value) :
  sqlite db sql_query = ExecOk (Some columns) (row :: rows) rowcount db' →
  find_handle 0 columns = Some handle_index →
  extract_handles handle_index (row :: rows) = Some handles →
  (∃ doc' n,
     n ≤ length (filter (λ h, writable_match doc h = true) handles) ∧
     same_identity doc doc' ∧
     query_and_highlight sqlite rng db (Active doc) sql_query color =
       (if decide (0 < n)
        then HighlightedRows n (length (row :: rows))
        else NoneHighlighted,
        Active doc')) ∧
  (NoDup ((λ j, temp_name (rng j)) <$> seq 0 (length handles)) →
   (∀ j, j < length handles →
         SelectionSets doc !! temp_name (rng j) = None) →
   ∃ doc',
     same_identity doc doc' ∧
     query_and_highlight sqlite rng db (Active doc) sql_query color =
       (let n := length (filter (λ h, writable_match doc h = true) handles) in
        if decide (0 < n)
        then HighlightedRows n (length (row :: rows))
        else NoneHighlighted,
        Active doc')) ∧
  (∀ h, writable_match doc h = true →
        length (filter (λ h', h' = h) handles)
          ≤ length (filter (λ h', writable_match doc h' = true) handles)) ∧
  query_and_highlight
    (fixed_result ["handle"] [[SqlText "2B"]; [SqlText "2B"]; [SqlText "2B"]])
    (λ _, 0%N) empty_store (Active two_lines)
    "SELECT handle FROM cad_elements" 1
  = (HighlightedRows 3 3,
     Active {| Name := Name two_lines;
               ModelSpace :=
                 [line_entity "1A" (0, 0, 0)%Z (1, 0, 0)%Z;
                  with_color 1 (line_entity "2B" (0, 1, 0)%Z (1, 1, 0)%Z);
                  line_entity "3C" (0, 2, 0)%Z (1, 2, 0)%Z];
               SelectionSets := {["QueryResults" := [1]]} |}).
Proof.
  intros Hexec Hfind Hext. split_and!.
  - by eapply query_and_highlight_bound.
  - intros Hnd Hfree.
    destruct (query_and_highlight_any sqlite rng db doc sql_query color
                columns row rows rowcount db' handle_index handles)
      as (doc' & Hid & Hrun & _); [done..|].
    by exists doc'.
  - intros h Hh. by apply repeated_handle_count.
  - by vm_compute.
Qed.

Lemma rows_are_counted_without_deduplication_witness :
  ∃ doc',
    same_identity two_lines doc' ∧
    query_and_highlight
      (fixed_result ["handle"] [[SqlText "2B"]; [SqlText "2B"]; [SqlText "2B"]])
      (λ k, N.of_nat k) empty_store (Active two_lines)
      "SELECT handle FROM cad_elements" 1
    = (HighlightedRows 3 3, Active doc').
Proof.
  destruct (rows_are_counted_without_deduplication
              (fixed_result ["handle"]
                 [[SqlText "2B"]; [SqlText "2B"]; [SqlText "2B"]])
              (λ k, N.of_nat k) empty_store two_lines
              "SELECT handle FROM cad_elements" 1%Z ["handle"]
              [SqlText "2B"] [[SqlText "2B"]; [SqlText "2B"]] (-1)%Z
              empty_store 0 [SqlText "2B"; SqlText "2B"; SqlText "2B"]
              eq_refl eq_refl eq_refl)
    as (_ & Hexact & _ & _).
  apply Hexact.
  - apply (bool_decide_unpack _). by vm_compute.
  - intros j _. apply lookup_empty.
Defined.

(** ** C7 *)

(** C7 does not hold of the code: when the colour of the selected entity
    cannot be written, [highlight_entity] returns its failure answer with
    the selection set [TempSS] still in the document, and every later call
    of it fails on that name; [query_and_highlight] keeps the scratch set of
    that handle, and with the generator repeating its draw the next handle,
    which does select an entity, is passed over. *)
Theorem scratch_selection_is_left_behind :
  (∃ doc',
     highlight_entity (Active locked_drawing) "2A" 1
       = (HighlightFailed, Active doc') ∧
     SelectionSets doc' !! "TempSS" = Some [0] ∧
     ∀ handle color,
       (highlight_entity (Active doc') handle color).1 = HighlightFailed) ∧
  (∃ doc',
     query_and_highlight (fixed_result ["handle"] [[SqlText "2A"]]) (λ _, 0%N)
       empty_store (Active locked_drawing) "SELECT handle FROM cad_elements" 1
       = (NoneHighlighted, Active doc') ∧
     SelectionSets doc' !! "Temp_1000" = Some [0]) ∧
  (query_and_highlight
     (fixed_result ["handle"] [[SqlText "2A"]; [SqlText "1A"]]) (λ _, 0%N)
     empty_store (Active locked_drawing) "SELECT handle FROM cad_elements" 1).1
    = NoneHighlighted ∧
  select_value (SqlText "1A") locked_drawing = [1].
Proof.
  split_and!.
  - eexists. split_and!; [by vm_compute|by vm_compute|].
    intros handle color. by vm_compute.
  - eexists. split; by vm_compute.
  - by vm_compute.
  - by vm_compute.
Qed.

(** ** C8 *)

(** The statement the scan itself sends, as SQLite runs it: every record
    goes and the row count is the number of records removed. *)
Definition delete_all_engine : sql_engine :=
  λ db text,
    if bool_decide (text = "DELETE FROM cad_elements")
    then ExecOk None [] (Z.of_nat (length (cad_elements db)))
                {| cad_elements := []; text_patterns := text_patterns db |}
    else ExecError "near: syntax error".

Definition one_circle : store :=
  {| cad_elements :=
       [ {| ce_id := 1; ce_handle := Some "9Z"; ce_name := "Circle";
            ce_type := "AcDbCircle"; ce_layer := Some "0";
            ce_properties := None |} ];
     text_patterns := [] |}.

(** A statement is destructive on a store when the store runs it and is
    left with fewer records. *)
Definition destructive (sqlite : sql_engine) (db : store) (query : string)
    : Prop :=
  ∃ description rows rowcount db',
    sqlite db query = ExecOk description rows rowcount db' ∧
    length (cad_elements db') < length (cad_elements db).

(** C8 as stated, for destructive statements: they end in a failure
    result. *)
Definition destructive_statements_fail (sqlite : sql_engine) : Prop :=
  ∀ db query,
    destructive sqlite db query →
    ∃ msg, (execute_query sqlite db query).1 = QueryError msg.

(** C8, as stated, fails: the delete of all records is run, committed and
    reported as executed. *)
Lemma destructive_statement_is_executed :
  execute_query delete_all_engine one_circle "DELETE FROM cad_elements"
    = (QueryAffected 1, empty_store) ∧
  ¬ destructive_statements_fail delete_all_engine.
Proof.
  split; [done|]. intros Hclaim.
  destruct (Hclaim one_circle "DELETE FROM cad_elements") as [msg Hmsg];
    [|done].
  exists None, [], 1%Z, empty_store. split; [done|]. simpl. lia.
Qed.

Lemma dict_set_fresh {V} k (v : V) d :
  k ∉ d.*1 → dict_set k v d = d ++ [(k, v)].
Proof.
  induction d as [|[k' v'] d IH]; [done|]. simpl.
  intros [Hne Hd]%not_elem_of_cons.
  rewrite bool_decide_eq_false_2 by done. by rewrite IH.
Qed.

Lemma dict_of_foldl {V} (pairs d : list (string * V)) :
  NoDup (d.*1 ++ pairs.*1) →
  foldl (λ d kv, dict_set kv.1 kv.2 d) d pairs = d ++ pairs.
Proof.
  revert d. induction pairs as [|[k v] l IH]; intros d Hnd; simpl.
  { by rewrite app_nil_r. }
  simpl in Hnd. apply NoDup_app in Hnd as Hparts.
  destruct Hparts as (_ & Hfresh & _).
  rewrite dict_set_fresh.
  - rewrite IH; [by rewrite <-app_assoc|].
    by rewrite fmap_app, <-app_assoc.
  - intros Hin. apply (Hfresh k Hin). apply elem_of_cons; auto.
Qed.

(** With pairwise different column names the dictionary of a row pairs
    each column with its value, in order. *)
Lemma dict_of_zip (columns : list string) (row : list sql_value) :
  NoDup columns → length row = length columns →
  dict_of (zip columns row) = zip columns row.
Proof.
  intros Hnd Hlen. unfold dict_of. rewrite dict_of_foldl; [done|].
  simpl. rewrite fst_zip by lia. done.
Qed.

Lemma dict_set_keys {V} k (v : V) (d : list (string * V)) :
  (dict_set k v d).*1 = if bool_decide (k ∈ d.*1) then d.*1 else d.*1 ++ [k].
Proof.
  induction d as [|[k' v'] d IH]; [done|]. cbn [dict_set fmap list_fmap fst].
  destruct (decide (k = k')) as [->|Hne].
  - rewrite (bool_decide_eq_true_2 (k' = k')) by done.
    by rewrite bool_decide_eq_true_2 by (apply elem_of_cons; by left).
  - rewrite (bool_decide_eq_false_2 (k = k')) by done.
    cbn [fmap list_fmap fst]. fold (fmap (M:=list) (@fst string V)).
    rewrite IH. destruct (decide (k ∈ d.*1)) as [Hd|Hd].
    + rewrite (bool_decide_eq_true_2 (k ∈ d.*1)) by done.
      by rewrite bool_decide_eq_true_2 by (apply elem_of_cons; by right).
    + rewrite (bool_decide_eq_false_2 (k ∈ d.*1)) by done.
      rewrite bool_decide_eq_false_2; [done|].
      intros [?|?]%elem_of_cons; done.
Qed.

Lemma dict_set_NoDup {V} k (v : V) (d : list (string * V)) :
  NoDup d.*1 → NoDup (dict_set k v d).*1.
Proof.
  intros Hnd. rewrite dict_set_keys. case_bool_decide; [done|].
  apply NoDup_app. split_and!; [done| |apply NoDup_singleton].
  intros x Hx ->%list_elem_of_singleton. done.
Qed.

Lemma filter_key_absent {V} k (d : list (string * V)) :
  k ∉ d.*1 → filter (λ kv : string * V, kv.1 = k) d = [].
Proof.
  induction d as [|[k1 v1] d IH]; [done|]. cbn [fmap list_fmap fst].
  intros [Hne Hk]%not_elem_of_cons.
  rewrite filter_cons, decide_False by (simpl; congruence). by apply IH.
Qed.

Lemma dict_set_filter {V} k k' (v : V) (d : list (string * V)) :
  NoDup d.*1 →
  filter (λ kv, kv.1 = k) (dict_set k' v d)
  = if bool_decide (k' = k) then [(k', v)] else filter (λ kv, kv.1 = k) d.
Proof.
  induction d as [|[k0 v0] d IH]; intros Hnd; cbn [dict_set].
  { rewrite filter_cons. cbn [fst].
    repeat (case_decide || case_bool_decide); simplify_eq; done. }
  apply NoDup_cons in Hnd as [Hk0 Hnd].
  destruct (decide (k' = k0)) as [->|Hne0].
  - rewrite (bool_decide_eq_true_2 (k0 = k0)) by done.
    rewrite !filter_cons. cbn [fst].
    pose proof (filter_key_absent k0 d Hk0) as Habs.
    repeat (case_decide || case_bool_decide); simplify_eq; try done.
    by rewrite Habs.
  - rewrite (bool_decide_eq_false_2 (k' = k0)) by done.
    rewrite !filter_cons, IH by done. cbn [fst].
    repeat (case_decide || case_bool_decide); simplify_eq; done.
Qed.

(** A row dictionary has each column name once, and the value under a name
    is the value of the last column of that name: of columns sharing a
    name, the values of all but the last are lost to the caller. *)
Lemma dict_of_last_wins {V} (pairs : list (string * V)) :
  NoDup (dict_of pairs).*1 ∧
  ∀ k, filter (λ kv, kv.1 = k) (dict_of pairs)
       = option_list (last (filter (λ kv, kv.1 = k) pairs)).
Proof.
  unfold dict_of.
  assert (∀ d : list (string * V), NoDup d.*1 →
            NoDup (foldl (λ d kv, dict_set kv.1 kv.2 d) d pairs).*1 ∧
            ∀ k, filter (λ kv, kv.1 = k)
                   (foldl (λ d kv, dict_set kv.1 kv.2 d) d pairs)
                 = option_list
                     (match last (filter (λ kv, kv.1 = k) pairs) with
                      | Some x => Some x
                      | None => last (filter (λ kv, kv.1 = k) d)
                      end)) as Hgen.
  { induction pairs as [|[k' v] l IH]; intros d Hnd; simpl.
    { split; [done|]. intros k.
      assert (length (filter (λ kv : string * V, kv.1 = k) d) ≤ 1) as Hlen.
      { clear -Hnd. induction d as [|[k0 v0] d IH]; [simpl; lia|].
        apply NoDup_cons in Hnd as [Hk0 Hnd]. rewrite filter_cons.
        case_decide as Hk; simpl in *; [|by apply IH]. subst.
        rewrite filter_key_absent by done. simpl. lia. }
      destruct (filter _ d) as [|x [|y f]]; simpl in *; [done|done|lia]. }
    destruct (IH (dict_set k' v d)) as [Hnd' Hf]; [by apply dict_set_NoDup|].
    split; [done|]. intros k. rewrite Hf, dict_set_filter by done.
    rewrite filter_cons. simpl.
    case_decide; case_bool_decide; simplify_eq; try done.
    destruct (filter (λ kv : string * V, kv.1 = k) l) as [|x f]; [done|].
    rewrite last_cons_cons.
    destruct (last (x :: f)) eqn:Hl; [done|]. by apply last_None in Hl. }
  destruct (Hgen []) as [Hnd Hf]; [apply NoDup_nil_2|].
  split; [done|]. intros k. rewrite Hf. simpl.
  by destruct (last (filter (λ kv : string * V, kv.1 = k) pairs)).
Qed.

Lemma dict_of_elem_of {V} (pairs : list (string * V)) kv :
  kv ∈ dict_of pairs → kv ∈ pairs.
Proof.
  intros Hin. destruct (dict_of_last_wins pairs) as [_ Hlast].
  assert (kv ∈ filter (λ kv' : string * V, kv'.1 = kv.1) (dict_of pairs)) as Hf
    by by apply list_elem_of_filter.
  rewrite Hlast in Hf.
  destruct (last (filter (λ kv' : string * V, kv'.1 = kv.1) pairs))
    as [x|] eqn:Hl; simpl in Hf; [|by apply elem_of_nil in Hf].
  apply list_elem_of_singleton in Hf as ->.
  apply last_Some_elem_of in Hl. by apply list_elem_of_filter in Hl as [_ ?].
Qed.

(** The dictionaries of rows without a BLOB can be written as JSON. *)
Lemma all_serializable_rows (columns : list string)
    (rows : list (list sql_value)) :
  Forall (Forall (λ v, json_serializable v = true)) rows →
  all_serializable ((λ row, dict_of (zip columns row)) <$> rows) = true.
Proof.
  intros Hser. unfold all_serializable.
  apply forallb_forall. intros d (row & <- & Hrow)%in_map_iff.
  apply list_elem_of_In in Hrow.
  rewrite Forall_forall in Hser.
  apply forallb_forall. intros [k v] Hkv%list_elem_of_In. simpl.
  apply dict_of_elem_of, (elem_of_zip_r k v) in Hkv.
  specialize (Hser row Hrow). rewrite Forall_forall in Hser. by apply Hser.
Qed.

(** C8, amended: [execute_query] hands the text to the store as it is.
    When the store raises, the caller gets the failure result carrying the
    store's message and the store is unchanged.  When the store runs a text
    that, stripped and upper-cased, starts with SELECT, the change is
    committed and one dictionary is built per row, which with pairwise
    different column names pairs every column name with the value of the
    row; the caller gets these dictionaries unless one of their values is
    a BLOB, which cannot be written as JSON, and gets the failure result
    then; rows without a BLOB are always returned.  When the store runs any
    other text, a destructive statement included, the change is committed
    and the call reports the statement as executed, with the affected row
    count. *)
Theorem execute_query_reports_store_outcome (sqlite : sql_engine) (db : store)
    (query : string) :
  (∀ msg, sqlite db query = ExecError msg →
     execute_query sqlite db query = (QueryError msg, db)) ∧
  (∀ columns rows rowcount db',
     sqlite db query = ExecOk (Some columns) rows rowcount db' →
     startswith "SELECT" (upper (strip query)) = true →
     let result := (λ row, dict_of (zip columns row)) <$> rows in
     execute_query sqlite db query
       = (if all_serializable result
          then QueryRows result
          else QueryError "Object of type bytes is not JSON serializable",
          db') ∧
     length result = length rows ∧
     (NoDup columns →
      Forall (λ row, length row = length columns) rows →
      result = zip columns <$> rows) ∧
     (Forall (Forall (λ v, json_serializable v = true)) rows →
      execute_query sqlite db query = (QueryRows result, db'))) ∧
  (∀ description rows rowcount db',
     sqlite db query = ExecOk description rows rowcount db' →
     startswith "SELECT" (upper (strip query)) = false →
     execute_query sqlite db query = (QueryAffected rowcount, db')).
Proof.
  unfold execute_query. split_and!.
  - by intros msg ->.
  - intros columns rows rowcount db' -> ->. cbv zeta. split_and!.
    + by destruct (all_serializable ((λ row, dict_of (zip columns row)) <$> rows)).
    + by rewrite length_fmap.
    + intros Hnd Hrows. apply Forall_fmap_ext.
      eapply Forall_impl; [exact Hrows|]. intros row Hlen. simpl in Hlen.
      by apply dict_of_zip.
    + intros Hser. by rewrite all_serializable_rows.
  - by intros description rows rowcount db' -> ->.
Qed.

(** A row with a BLOB: the statement is run and committed, and the caller
    gets the failure result. *)
Example blob_row_fails :
  execute_query (fixed_result ["b"] [[SqlBlob [x00]]]) one_circle "SELECT x'00' AS b"
  = (QueryError "Object of type bytes is not JSON serializable", one_circle).
Proof. reflexivity. Qed.

(** * Further properties of [src/server.py] *)

(** ** The string operations *)

Lemma startswith_spec p s :
  startswith p s = true ↔ ∃ t, s = p +:+ t.
Proof.
  revert s. induction p as [|a p IH]; intros s; simpl.
  { split; [eauto|done]. }
  destruct s as [|b s]; simpl.
  { split; [done|]. by intros (t & [=]). }
  rewrite andb_true_iff, bool_decide_eq_true, IH. split.
  - intros [-> [t ->]]. eauto.
  - intros (t & [= -> ->]). eauto.
Qed.

(** X1: [pattern in text] holds exactly when the text is some prefix, the
    pattern, and some suffix: the match is literal, case-sensitive and not
    anchored. *)
Theorem contains_spec (p s : string) :
  contains p s = true ↔ ∃ a b, s = a +:+ p +:+ b.
Proof.
  split.
  - induction s as [|c s IH]; simpl; rewrite orb_true_iff.
    + intros [H|H]; [|done]. apply startswith_spec in H as [t ->].
      by exists "", t.
    + intros [H|H].
      * apply startswith_spec in H as [t Ht]. exists "", t. by rewrite Ht.
      * destruct (IH H) as (a & b & ->). by exists (String c a), b.
  - intros (a & b & ->). induction a as [|c a IH]; simpl.
    + assert (startswith p (p +:+ b) = true) as Hs
        by (apply startswith_spec; eauto).
      destruct (p +:+ b); simpl in *; by rewrite Hs.
    + simpl in IH. by rewrite IH, orb_true_r.
Qed.

Lemma contains_false_startswith p s :
  contains p s = false → startswith p s = false.
Proof. destruct s; simpl; by intros [? ?]%orb_false_iff. Qed.

Lemma remove_from_absent p s :
  contains p s = false → remove_from p 0 s = s.
Proof.
  induction s as [|c s IH]; [done|]. intros Hc.
  pose proof (contains_false_startswith _ _ Hc) as Hs.
  cbn [remove_from]. rewrite Hs. f_equal. apply IH.
  simpl in Hc. by apply orb_false_iff in Hc as [_ ?].
Qed.

Lemma remove_from_skip p q s :
  remove_from p (String.length q) (q +:+ s) = remove_from p 0 s.
Proof. induction q as [|c q IH]; [done|]. simpl. apply IH. Qed.

(** X2: [ObjectName.replace("AcDb", "")], the [name] column: a tag without the
    marker is kept as it is, and a tag made of the marker and a rest that
    is free of it is reduced to the rest. *)
Theorem remove_all_prefix (p t : string) :
  p ≠ "" → contains p t = false →
  remove_all p t = t ∧ remove_all p (p +:+ t) = t.
Proof.
  intros Hp Ht. unfold remove_all. split; [by apply remove_from_absent|].
  destruct p as [|c p]; [done|].
  assert (startswith (String c p) (String c p +:+ t) = true) as Hs
    by (apply startswith_spec; eauto).
  change (String c p +:+ t) with (String c (p +:+ t)) in *.
  cbn [remove_from]. rewrite Hs.
  replace (String.length (String c p) - 1) with (String.length p)
    by (simpl; lia).
  rewrite remove_from_skip. by apply remove_from_absent.
Qed.

Lemma remove_all_prefix_witness :
  remove_all "AcDb" "Polyline" = "Polyline" ∧
  remove_all "AcDb" ("AcDb" +:+ "Polyline") = "Polyline".
Proof. apply (remove_all_prefix "AcDb" "Polyline"); [discriminate|reflexivity]. Defined.

Lemma find_handle_shift k columns :
  find_handle k columns = (λ j, k + j) <$> find_handle 0 columns.
Proof.
  revert k. induction columns as [|name l IH]; intros k; simpl; [done|].
  case_bool_decide; simpl; [f_equal; lia|].
  rewrite (IH (S k)), (IH 1). destruct (find_handle 0 l); simpl; [|done].
  f_equal. lia.
Qed.

(** X3: The handle column is the first column whose name, lower-cased, is
    [handle]: later columns of that name are not looked at. *)
Theorem find_handle_first (columns : list string) (i : nat) :
  find_handle 0 columns = Some i ↔
    (∃ name, columns !! i = Some name ∧ lower name = "handle") ∧
    ∀ j name, j < i → columns !! j = Some name → lower name ≠ "handle".
Proof.
  revert i. induction columns as [|name l IH]; intros i; simpl.
  { split; [done|]. by intros [(? & ? & _) _]. }
  case_bool_decide as Hn.
  - split.
    + intros [= <-]. split; [by exists name|]. intros; lia.
    + intros [_ Hfirst]. destruct i as [|i]; [done|].
      exfalso. apply (Hfirst 0 name); [lia|done|done].
  - rewrite find_handle_shift. destruct i as [|i].
    + split; [by destruct (find_handle 0 l)|].
      intros [(name' & [= <-] & ?) _]. done.
    + split.
      * intros Hm. destruct (IH i) as [IHi _].
        destruct (find_handle 0 l) as [j|]; [|done].
        simpl in Hm. injection Hm as ->.
        destruct (IHi eq_refl) as [Hat Hfirst]. split; [done|].
        intros [|j'] name' Hlt; simpl; [by intros [= <-]|].
        apply Hfirst. lia.
      * intros [Hat Hfirst].
        assert (find_handle 0 l = Some i) as ->; [|done].
        apply IH. split; [done|]. intros j name' Hlt Hj.
        apply (Hfirst (S j) name'); [lia|done].
Qed.

(** ** The primary keys *)









(** A store with one row in each table. *)
Definition counted_store : store :=
  {| cad_elements :=
       [ {| ce_id := 1; ce_handle := Some "9Z"; ce_name := "Circle";
            ce_type := "AcDbCircle"; ce_layer := Some "0";
            ce_properties := None |} ];
     text_patterns :=
       [ {| tp_id := 7; tp_pattern := Some "PMC"; tp_count := Some 4%Z;
            tp_drawing := Some "Drawing1.dwg" |} ] |}.



(** ** What a scan leaves in the table *)

Lemma foldl_max_seq (a m : nat) :
  foldl Z.max (Z.of_nat a) (Z.of_nat <$> seq (S a) m) = Z.of_nat (a + m).
Proof.
  revert a. induction m as [|m IH]; intros a; simpl.
  { f_equal. lia. }
  replace (Z.max (Z.of_nat a) (Z.of_nat (S a))) with (Z.of_nat (S a)) by lia.
  rewrite IH. f_equal. lia.
Qed.

Lemma next_rowid_seq (m : nat) :
  next_rowid (Z.of_nat <$> seq 1 m) = Z.of_nat (S m).
Proof.
  destruct m as [|m]; [done|]. simpl seq. rewrite fmap_cons.
  unfold next_rowid. rewrite (foldl_max_seq 1 m). lia.
Qed.

Lemma without_conflicts_none {C} (key : C → option string) k (t : list C) :
  (∀ r, r ∈ t → unique_conflict k (key r) = false) →
  without_conflicts key k t = t.
Proof.
  unfold without_conflicts. induction t as [|r t IH]; intros Hno; [done|].
  rewrite filter_cons, decide_True by (apply Hno; left).
  f_equal. apply IH. intros r' Hr'. apply Hno. by right.
Qed.

Lemma scan_rows_distinct vs t :
  NoDup (omap ce_handle t ++ omap ev_handle vs) →
  ce_id <$> t = Z.of_nat <$> seq 1 (length t) →
  ce_id <$> foldl (λ t v, insert_or_replace_element v t) t vs
    = Z.of_nat <$> seq 1 (length t + length vs) ∧
  row_content <$> foldl (λ t v, insert_or_replace_element v t) t vs
    = (row_content <$> t) ++ (bound_content <$> vs).
Proof.
  revert t. induction vs as [|v vs IH]; intros t Hnd Hids; simpl.
  { by rewrite Nat.add_0_r, app_nil_r. }
  assert (without_conflicts ce_handle (ev_handle v) t = t) as Hkeep.
  { apply without_conflicts_none. intros r Hr.
    apply not_true_is_false. intros (h & Hv & Hh)%unique_conflict_true.
    apply NoDup_app in Hnd as (_ & Hdisj & _). apply (Hdisj h).
    - apply list_elem_of_omap. eauto.
    - csimpl. rewrite Hv. left. }
  destruct (IH (insert_or_replace_element v t)) as [Hi Hc].
  - unfold insert_or_replace_element. rewrite Hkeep, omap_app, <-app_assoc.
    csimpl in *. by destruct (ev_handle v).
  - unfold insert_or_replace_element.
    rewrite Hkeep, fmap_app, length_app, Hids, next_rowid_seq. simpl.
    rewrite Nat.add_1_r, seq_S, fmap_app. simpl. done.
  - rewrite Hi, Hc. unfold insert_or_replace_element.
    rewrite Hkeep, length_app, fmap_app, <-app_assoc. simpl.
    split; [do 2 f_equal; lia|done].
Qed.

(** X5: When the handles of the captured entities are pairwise different, the
    scan stores every captured entity, in the order of the model space,
    under the ids 1, 2, ... ; the reported count is then the number of
    rows of the table. *)
Theorem scan_stores_every_distinct_entity (doc : document) (db : store) :
  NoDup (omap ev_handle (captured doc)) →
  row_content <$> cad_elements (scan_all_entities (Active doc) db).2
    = bound_content <$> captured doc ∧
  ce_id <$> cad_elements (scan_all_entities (Active doc) db).2
    = Z.of_nat <$> seq 1 (length (captured doc)) ∧
  ∃ entity_types,
    (scan_all_entities (Active doc) db).1 =
      Scanned (length (cad_elements (scan_all_entities (Active doc) db).2))
              entity_types.
Proof.
  intros Hnd. simpl.
  destruct (scan_foldl (ModelSpace doc)
              {| sc_rows := []; sc_count := 0; sc_types := ∅ |})
    as (Hr & Hc & _). simpl in Hr, Hc. unfold scan_loop. rewrite Hr, Hc.
  destruct (scan_rows_distinct (omap capture (ModelSpace doc)) []) as [Hi Hco];
    [done..|].
  split_and!; [done|done|]. eexists. f_equal.
  rewrite <-(length_fmap ce_id), Hi, length_fmap, length_seq. done.
Qed.

Lemma scan_stores_every_distinct_entity_witness :
  let doc := drawing [line_entity "1A" (0, 0, 0)%Z (1, 0, 0)%Z;
                      damaged_line;
                      text_entity "3C" "PMC-3M"] in
  ce_id <$> cad_elements (scan_all_entities (Active doc) one_circle).2
    = [1; 2]%Z.
Proof.
  intros doc.
  destruct (scan_stores_every_distinct_entity doc one_circle) as (_ & Hids & _).
  - apply (bool_decide_unpack _). by vm_compute.
  - exact Hids.
Defined.

Lemma existsb_conflict_filter {C} (key : C → option string) h (l : list C) :
  existsb (λ c', unique_conflict (Some h) (key c')) l = false ↔
  filter (λ c, key c = Some h) l = [].
Proof.
  induction l as [|c l IH]; [done|]. cbn [existsb]. rewrite filter_cons.
  rewrite orb_false_iff, IH. clear IH.
  case_decide as Hc.
  - rewrite Hc. simpl. rewrite bool_decide_eq_true_2 by done.
    split; [by intros [? _]|done].
  - assert (unique_conflict (Some h) (key c) = false) as ->; [|tauto].
    destruct (key c) as [h'|]; [|done]. simpl.
    apply bool_decide_eq_false. congruence.
Qed.

(** Looking a value up after a run of insert-or-replace finds the last row
    inserted with it, and nothing else. *)
Lemma keep_last_filter {C} (key : C → option string) h (l : list C) :
  filter (λ c, key c = Some h) (keep_last key l)
  = option_list (last (filter (λ c, key c = Some h) l)).
Proof.
  induction l as [|c l IH]; [done|]. simpl.
  destruct (existsb _ l) eqn:Hex.
  - rewrite IH, filter_cons. case_decide as Hc; [|done].
    rewrite Hc in Hex.
    destruct (filter (λ c0, key c0 = Some h) l) as [|x f] eqn:Hf; [|done].
    apply existsb_conflict_filter in Hf. congruence.
  - rewrite !filter_cons. case_decide as Hc; [|done].
    rewrite Hc in Hex. apply existsb_conflict_filter in Hex.
    by rewrite IH, Hex.
Qed.

Lemma list_filter_fmap_comm {A B} (f : A → B) (P : B → Prop)
    `{!∀ x, Decision (P x)} (l : list A) :
  filter P (f <$> l) = f <$> filter (λ a, P (f a)) l.
Proof.
  induction l as [|a l IH]; [done|]. rewrite fmap_cons, !filter_cons.
  case_decide; [rewrite fmap_cons|]; by rewrite IH.
Qed.

(** X6: Insert and look up: after a scan the rows carrying a handle are the
    last captured entity with that handle, alone, or none when no captured
    entity carries it; what the table held before plays no part. *)
Theorem scan_lookup_by_handle (doc : document) (db : store) (h : string) :
  filter (λ c, content_key c = Some h)
    (row_content <$> cad_elements (scan_all_entities (Active doc) db).2)
  = option_list
      (bound_content <$>
         last (filter (λ v, ev_handle v = Some h) (captured doc))).
Proof.
  simpl. destruct (scan_loop_rows (ModelSpace doc)) as [-> _].
  rewrite keep_last_filter, list_filter_fmap_comm, fmap_last. done.
Qed.

Lemma keep_last_elem_of {C} (key : C → option string) (l : list C) x :
  x ∈ keep_last key l → x ∈ l.
Proof.
  induction l as [|c l IH]; [done|]. simpl. destruct (existsb _ l).
  - intros ?%IH. by right.
  - intros [->|?%IH]%elem_of_cons; [left|by right].
Qed.

Lemma capture_reads e v :
  capture e = Some v →
  read (ObjectName e) = Some (ev_type v) ∧
  read (Handle e) = Some (ev_handle v) ∧
  read (Layer e) = Some (ev_layer v) ∧
  extract_properties (ev_type v) e = Some (ev_properties v) ∧
  ev_name v = remove_all "AcDb" (ev_type v).
Proof.
  unfold capture, element_of.
  destruct (read (ObjectName e)) as [ty|]; [|done]. simpl.
  destruct (extract_properties ty e) eqn:Hp; [|done]. simpl.
  destruct (read (Handle e)); [|done]. simpl.
  destruct (read (Layer e)); [|done]. simpl. by intros [= <-].
Qed.

(** X7: The snapshot holds nothing the drawing does not have: every row a scan
    leaves is the type tag, handle, layer and extracted properties of an
    entity of the model space, with the name column the tag without
    ["AcDb"]. *)
Theorem scan_rows_come_from_entities (doc : document) (db : store) :
  Forall (λ r,
    ce_name r = remove_all "AcDb" (ce_type r) ∧
    ∃ entity,
      entity ∈ ModelSpace doc ∧
      read (ObjectName entity) = Some (ce_type r) ∧
      read (Handle entity) = Some (ce_handle r) ∧
      Some <$> read (Layer entity) = Some (ce_layer r) ∧
      Some <$> extract_properties (ce_type r) entity = Some (ce_properties r))
    (cad_elements (scan_all_entities (Active doc) db).2).
Proof.
  simpl. destruct (scan_loop_rows (ModelSpace doc)) as [Hrows _].
  apply Forall_forall. intros r Hr.
  assert (row_content r ∈ keep_last content_key
            (bound_content <$> omap capture (ModelSpace doc))) as Hin.
  { rewrite <-Hrows. by apply list_elem_of_fmap_2. }
  apply keep_last_elem_of, list_elem_of_fmap in Hin as (v & Hv & Hcap).
  apply list_elem_of_omap in Hcap as (e & He & Hcap).
  apply capture_reads in Hcap as (Hty & Hh & Hly & Hp & Hname).
  unfold row_content, bound_content in Hv. injection Hv as -> -> -> -> ->.
  split; [done|]. exists e. rewrite Hty, Hh, Hly, Hp. done.
Qed.

Lemma count_type_positive ty (m : gmap string nat) :
  (∀ t n, m !! t = Some n → 0 < n) →
  ∀ t n, count_type ty m !! t = Some n → 0 < n.
Proof.
  intros Hpos t n. unfold count_type.
  destruct (m !! ty) as [k|] eqn:Hk;
    (destruct (decide (t = ty)) as [->|Hne];
     [rewrite lookup_insert_eq; intros [= <-]; lia
     |rewrite lookup_insert_ne by done; apply Hpos]).
Qed.

Lemma histogram_positive tags (m : gmap string nat) :
  (∀ t n, m !! t = Some n → 0 < n) →
  ∀ t n, foldl (λ m ty, count_type ty m) m tags !! t = Some n → 0 < n.
Proof.
  revert m. induction tags as [|ty l IH]; intros m Hpos; [done|].
  simpl. apply IH. by apply count_type_positive.
Qed.

(** X8: The histogram has a key for a tag exactly when some entity's tag read
    as it, and the value is then the number of those entities: no key
    carries zero. *)
Theorem scan_histogram_keys (doc : document) (db : store) (t : string)
    (n : nat) :
  ∃ entity_types count,
    (scan_all_entities (Active doc) db).1 = Scanned count entity_types ∧
    (entity_types !! t = Some n ↔
       0 < n ∧ n = length (filter (λ ty, ty = t) (type_tags doc))).
Proof.
  simpl. do 2 eexists. split; [done|].
  destruct (scan_foldl (ModelSpace doc)
              {| sc_rows := []; sc_count := 0; sc_types := ∅ |})
    as (_ & _ & Ht). simpl in Ht. unfold scan_loop. rewrite Ht.
  destruct (histogram_foldl (omap (λ e, read (ObjectName e)) (ModelSpace doc)) ∅)
    as [Hlookup _]. simpl in Hlookup. specialize (Hlookup t).
  rewrite lookup_empty in Hlookup. simpl in Hlookup. unfold type_tags.
  split.
  - intros Hn. split.
    + eapply histogram_positive; [|exact Hn]. intros ? ?. by rewrite lookup_empty.
    + by rewrite Hn in Hlookup.
  - intros [Hpos ->].
    destruct (foldl _ _ _ !! t) as [k|]; simpl in *; [by f_equal|lia].
Qed.

(** X9: The two writers of the store do not meet: a scan never changes the
    pattern table, a pattern count never changes the entity table, so they
    can be run in either order, with the same store as the result while the
    ids of [text_patterns] are below the largest rowid; and a scan repeated
    on the same drawing, or run after any other scan, gives the result of
    the single scan. *)
Theorem scan_and_count_compose (acad1 acad2 acad3 : application)
    (doc : document) (db : store) (pattern : string) :
  text_patterns (scan_all_entities acad1 db).2 = text_patterns db ∧
  cad_elements (count_text_patterns acad2 db pattern).2 = cad_elements db ∧
  (Forall (λ r, (tp_id r < max_rowid)%Z) (text_patterns db) →
   (count_text_patterns acad2 (scan_all_entities acad1 db).2 pattern).2
     = (scan_all_entities acad1 (count_text_patterns acad2 db pattern).2).2) ∧
  scan_all_entities (Active doc) (scan_all_entities acad3 db).2
    = scan_all_entities (Active doc) db.
Proof.
  assert (∀ a d, text_patterns (scan_all_entities a d).2 = text_patterns d)
    as Hscan by (by intros [| |?] ?).
  assert (∀ a d, cad_elements (count_text_patterns a d pattern).2
                 = cad_elements d) as Hcount.
  { intros [| |d'] d; [done..|]. unfold count_text_patterns.
    destruct (read (Name d')); [|done]. by destruct (count_loop _ _). }
  split_and!; [done|done| |].
  - intros _. destruct acad1 as [| |d1], acad2 as [| |d2]; try done;
      simpl; unfold count_text_patterns;
      (destruct (read (Name d2)); [|done]); by destruct (count_loop _ _).
  - simpl. by rewrite Hscan.
Qed.

Lemma scan_and_count_compose_witness :
  let doc := drawing [line_entity "1A" (0, 0, 0)%Z (1, 0, 0)%Z;
                      text_entity "3C" "PMC-3M"] in
  (count_text_patterns (Active doc)
     (scan_all_entities (Active doc) counted_store).2 "PMC").2
  = (scan_all_entities (Active doc)
       (count_text_patterns (Active doc) counted_store "PMC").2).2.
Proof.
  intros doc.
  destruct (scan_and_count_compose (Active doc) (Active doc) NoDocument doc
              counted_store "PMC") as (_ & _ & Horder & _).
  apply Horder. simpl. repeat constructor.
Defined.

(** ** The report of the pattern count *)









(** X11: A pattern count touches the row of its own pattern only: the rows of
    every other pattern, and the rows without a pattern, are after the call
    what they were before, whatever the application does. *)
Theorem count_keeps_other_patterns (acad : application) (db : store)
    (pattern : string) :
  filter (λ r, tp_pattern r ≠ Some pattern)
    (text_patterns (count_text_patterns acad db pattern).2)
  = filter (λ r, tp_pattern r ≠ Some pattern) (text_patterns db).
Proof.
  destruct acad as [| |doc]; [done..|]. unfold count_text_patterns.
  destruct (read (Name doc)); [|done]. destruct (count_loop _ _). simpl.
  unfold insert_or_replace_pattern, without_conflicts.
  rewrite filter_app, filter_cons, decide_False by (simpl; naive_solver).
  rewrite filter_nil, app_nil_r, list_filter_filter.
  apply list_filter_iff. intros r. split; [by intros [? _]|].
  intros Hr. split; [done|]. destruct (tp_pattern r) as [p'|]; [|done].
  simpl. apply bool_decide_eq_false. congruence.
Qed.

(** X12: The empty pattern occurs in every text: the count for it is the number
    of entities whose text can be read. *)
Theorem empty_pattern_counts_every_text (doc : document) :
  matching_count "" doc
  = length (filter (λ e, is_Some (read (TextString e))) (ModelSpace doc)).
Proof.
  unfold matching_count. f_equal. apply list_filter_iff. intros e.
  unfold text_matches. destruct (TextString e) as [| |text]; simpl.
  - split; [done|by intros [? ?]].
  - split; [done|by intros [? ?]].
  - by destruct text.
Qed.

(** ** [highlight_entity] on its normal paths *)

Lemma with_sets_same doc : with_sets (SelectionSets doc) doc = doc.
Proof. by destruct doc. Qed.

Lemma scratch_set_round_trip (name : string) (found : list nat)
    (sets : gmap string (list nat)) :
  sets !! name = None →
  delete name (<[name := found]> (<[name := []]> sets)) = sets.
Proof.
  intros Hfree. by rewrite insert_insert_eq, delete_insert_eq, delete_id.
Qed.

(** X13: When no selection set is called [TempSS], [highlight_entity] gives the
    scratch set back: a handle no entity carries leaves the document
    exactly as it was, and a handle whose first entity has a readable
    colour and is not locked changes the colour of that entity and nothing
    else, reporting the colour it had. *)
Theorem highlight_entity_releases_scratch_set (doc : document)
    (handle : string) (color : Z) :
  SelectionSets doc !! "TempSS" = None →
  match select_by_handle handle doc with
  | [] =>
      highlight_entity (Active doc) handle color
        = (HighlightNotFound, Active doc)
  | i :: _ =>
      ∀ e original_color,
        ModelSpace doc !! i = Some e →
        read (Color e) = Some original_color →
        locked e = false →
        highlight_entity (Active doc) handle color
          = (Highlighted original_color color,
             Active {| Name := Name doc;
                       ModelSpace := <[i := with_color color e]> (ModelSpace doc);
                       SelectionSets := SelectionSets doc |})
  end.
Proof.
  intros Hfree. unfold highlight_entity, highlight_in, add_selection_set.
  rewrite Hfree.
  change (select_by_handle handle
            (with_sets (<["TempSS":=[]]> (SelectionSets doc)) doc))
    with (select_by_handle handle doc).
  destruct (select_by_handle handle doc) as [|i found].
  - unfold delete_selection_set, with_sets. simpl.
    rewrite scratch_set_round_trip by done. by destruct doc.
  - intros e c0 He Hc Hl. unfold set_color. simpl. rewrite He. simpl.
    rewrite Hc, Hl. unfold delete_selection_set, with_sets. simpl.
    by rewrite scratch_set_round_trip.
Qed.

Lemma highlight_entity_releases_scratch_set_witness :
  highlight_entity (Active two_lines) "2B" 3
    = (Highlighted 256 3,
       Active {| Name := Name two_lines;
                 ModelSpace :=
                   <[1 := with_color 3 (line_entity "2B" (0, 1, 0)%Z (1, 1, 0)%Z)]>
                     (ModelSpace two_lines);
                 SelectionSets := SelectionSets two_lines |}).
Proof.
  apply (highlight_entity_releases_scratch_set two_lines "2B" 3%Z eq_refl
           (line_entity "2B" (0, 1, 0)%Z (1, 1, 0)%Z) 256%Z);
    reflexivity.
Defined.

(** X14: A selection set called [TempSS] left in the document blocks the tool:
    every call fails, whatever the handle, and changes nothing. *)
Theorem stale_scratch_set_blocks_highlight (doc : document)
    (members : list nat) (handle : string) (color : Z) :
  SelectionSets doc !! "TempSS" = Some members →
  highlight_entity (Active doc) handle color = (HighlightFailed, Active doc).
Proof.
  intros Hstale. unfold highlight_entity, highlight_in, add_selection_set.
  by rewrite Hstale.
Qed.

Lemma stale_scratch_set_blocks_highlight_witness :
  highlight_entity (Active (with_sets {["TempSS" := [0]]} two_lines)) "1A" 1
  = (HighlightFailed, Active (with_sets {["TempSS" := [0]]} two_lines)).
Proof.
  apply (stale_scratch_set_blocks_highlight
           (with_sets {["TempSS" := [0]]} two_lines) [0]).
  reflexivity.
Defined.

(** ** [highlight_text_matches] *)

Inductive text_highlight_result : Type :=
| TextNoDocument                  (* "No open document. ..." *)
| TextHighlighted (count : nat)   (* "Highlighted n text entities containing ..." *)
| TextNoMatches                   (* "No text entities containing ... found" *)
| TextFailed.                     (* "Failed to highlight text matches: ..." *)

(** One iteration of the loop over [range(model_space.Count)], on the
    document and [count]; the entity is read from the document as the
    earlier iterations left it. *)
Definition highlight_match (pattern : string) (color : Z)
    (s : document * nat) (i : nat) : document * nat :=
  let '(doc, count) := s in
  match ModelSpace doc !! i with
  | None => s
  | Some entity =>
      match hasattr (TextString entity) with
      | Some true =>
          match read (TextString entity) with
          | Some text =>
              if contains pattern text then
                match read (Color entity) with
                | None => s
                | Some original_color =>
                    match set_color i color doc with
                    | None => s
                    | Some doc1 => (add_item "TextMatches" i doc1, count + 1)
                    end
                end
              else s
          | None => s
          end
      | Some false | None => s
      end
  end.

Definition highlight_text_matches (acad : application) (pattern : string)
    (color : Z) : text_highlight_result * application :=
  match acad with
  | Unavailable => (TextFailed, acad)
  | NoDocument => (TextNoDocument, acad)
  | Active doc =>
      let doc0 := with_sets (<["TextMatches" := []]>
                               (delete "TextMatches" (SelectionSets doc))) doc in
      let '(doc1, count) :=
        foldl (highlight_match pattern color) (doc0, 0)
              (seq 0 (length (ModelSpace doc))) in
      if decide (0 < count)
      then (TextHighlighted count, Active doc1)
      else (TextNoMatches, Active (delete_selection_set "TextMatches" doc1))
  end.

(** The entities the loop recolours: the pattern occurs in their text,
    their colour can be read and they are not locked. *)
Definition highlightable (pattern : string) (entity : com_entity) : bool :=
  text_matches pattern entity
  && bool_decide (is_Some (read (Color entity)))
  && negb (locked entity).

Definition highlightable_at (pattern : string) (entities : list com_entity)
    (i : nat) : bool :=
  match entities !! i with
  | Some e => highlightable pattern e
  | None => false
  end.

Lemma highlight_match_step pattern color doc count i :
  highlight_match pattern color (doc, count) i =
    match ModelSpace doc !! i with
    | Some e =>
        if highlightable pattern e
        then (add_item "TextMatches" i
                {| Name := Name doc;
                   ModelSpace := <[i := with_color color e]> (ModelSpace doc);
                   SelectionSets := SelectionSets doc |},
              count + 1)
        else (doc, count)
    | None => (doc, count)
    end.
Proof.
  unfold highlight_match, highlightable, text_matches, set_color.
  destruct (ModelSpace doc !! i) as [e|] eqn:He; [|done]. simpl.
  destruct (hasattr (TextString e)) as [[]|]; try done.
  destruct (read (TextString e)) as [text|]; try done.
  destruct (contains pattern text); try done. simpl.
  destruct (read (Color e)) as [c0|]; simpl.
  - by destruct (locked e).
  - done.
Qed.

Lemma filter_ext_elem_of {A} (P Q : A → Prop) `{!∀ x, Decision (P x)}
    `{!∀ x, Decision (Q x)} (l : list A) :
  (∀ x, x ∈ l → P x ↔ Q x) → filter P l = filter Q l.
Proof.
  induction l as [|x l IH]; intros Hext; [done|].
  rewrite !filter_cons, IH by (intros y Hy; apply Hext; by right).
  destruct (Hext x) as [H1 H2]; [left|].
  repeat case_decide; try done; tauto.
Qed.

Lemma highlight_fold pattern color indices doc count members :
  NoDup indices →
  (∀ i, i ∈ indices → i ∉ members) →
  SelectionSets doc !! "TextMatches" = Some members →
  let hl := filter (λ i, highlightable_at pattern (ModelSpace doc) i = true)
                   indices in
  ∃ doc',
    foldl (highlight_match pattern color) (doc, count) indices
      = (doc', count + length hl) ∧
    Name doc' = Name doc ∧
    SelectionSets doc' = <["TextMatches" := members ++ hl]> (SelectionSets doc) ∧
    ∀ j, ModelSpace doc' !! j =
           (λ e, if bool_decide (j ∈ hl) then with_color color e else e)
             <$> ModelSpace doc !! j.
Proof.
  revert doc count members.
  induction indices as [|i rest IH]; intros doc count members Hnd Hnew Hset.
  { simpl. exists doc. split_and!; [by rewrite Nat.add_0_r|done| |].
    - rewrite app_nil_r. by rewrite insert_id.
    - intros j. by destruct (ModelSpace doc !! j). }
  apply NoDup_cons in Hnd as [Hi Hnd].
  cbn [foldl]. rewrite highlight_match_step, filter_cons.
  destruct (highlightable_at pattern (ModelSpace doc) i) eqn:Hat; cycle 1.
  { rewrite decide_False by done.
    assert (match ModelSpace doc !! i with
            | Some e =>
                if highlightable pattern e
                then (add_item "TextMatches" i
                        {| Name := Name doc;
                           ModelSpace := <[i := with_color color e]> (ModelSpace doc);
                           SelectionSets := SelectionSets doc |},
                      count + 1)
                else (doc, count)
            | None => (doc, count)
            end = (doc, count)) as ->.
    { unfold highlightable_at in Hat.
      destruct (ModelSpace doc !! i); [by rewrite Hat|done]. }
    apply IH; [done| |done]. intros j Hj. apply Hnew. by right. }
  unfold highlightable_at in Hat.
  destruct (ModelSpace doc !! i) as [e|] eqn:He; [|done]. rewrite Hat.
  rewrite decide_True by done.
  set (doc1 := add_item "TextMatches" i _).
  assert (SelectionSets doc1 = <["TextMatches" := members ++ [i]]> (SelectionSets doc))
    as Hsets1.
  { unfold doc1, add_item. simpl. rewrite Hset.
    rewrite bool_decide_eq_false_2 by (apply Hnew; left). done. }
  assert (ModelSpace doc1 = <[i := with_color color e]> (ModelSpace doc)) as Hms1.
  { unfold doc1, add_item. simpl. rewrite Hset. by case_bool_decide. }
  assert (Name doc1 = Name doc) as Hname1.
  { unfold doc1, add_item. simpl. rewrite Hset. by case_bool_decide. }
  assert (filter (λ j, highlightable_at pattern (ModelSpace doc1) j = true) rest
          = filter (λ j, highlightable_at pattern (ModelSpace doc) j = true) rest)
    as Hsame.
  { apply filter_ext_elem_of. intros j Hj. unfold highlightable_at.
    rewrite Hms1, list_lookup_insert_ne; [done|]. intros ->. done. }
  destruct (IH doc1 (count + 1) (members ++ [i]) Hnd) as (doc' & Hrun & Hn & Hs & Hm).
  { intros j Hj [Hjm| ->%list_elem_of_singleton]%elem_of_app; [|done].
    apply (Hnew j); [by right|done]. }
  { rewrite Hsets1. apply lookup_insert_eq. }
  rewrite Hsame in Hrun, Hs, Hm.
  exists doc'. split_and!.
  - rewrite Hrun. simpl. f_equal. lia.
  - congruence.
  - rewrite Hs, Hsets1, insert_insert_eq, <-app_assoc. done.
  - intros j. rewrite Hm, Hms1. destruct (decide (j = i)) as [->|Hne].
    + rewrite list_lookup_insert_eq by (by eapply lookup_lt_Some).
      rewrite He. simpl.
      rewrite (bool_decide_eq_true_2 (i ∈ i :: _)) by left.
      rewrite bool_decide_eq_false_2; [done|].
      intros [_ ?]%list_elem_of_filter. done.
    + rewrite list_lookup_insert_ne by done.
      destruct (ModelSpace doc !! j); [|done]. simpl.
      match goal with
      | |- context [bool_decide (j ∈ i :: ?F)] =>
          rewrite (bool_decide_ext (j ∈ i :: F) (j ∈ F)); [done|]
      end.
      rewrite elem_of_cons. tauto.
Qed.

Definition highlighted_indices (pattern : string) (doc : document) : list nat :=
  filter (λ i, highlightable_at pattern (ModelSpace doc) i = true)
         (seq 0 (length (ModelSpace doc))).

Lemma highlighted_indices_elem_of pattern doc j e :
  ModelSpace doc !! j = Some e →
  j ∈ highlighted_indices pattern doc ↔ highlightable pattern e = true.
Proof.
  intros He. unfold highlighted_indices.
  rewrite list_elem_of_filter, elem_of_seq. unfold highlightable_at.
  rewrite He. apply lookup_lt_Some in He. split; [by intros [? _]|].
  intros ?. split; [done|lia].
Qed.

Lemma length_filter_indices {A} (P : A → bool) (l : list A) :
  length (filter (λ i, match l !! i with Some e => P e | None => false end = true)
            (seq 0 (length l)))
  = length (filter (λ e, P e = true) l).
Proof.
  induction l as [|x l IH] using rev_ind; [done|].
  rewrite length_app, Nat.add_1_r, seq_S, !filter_app, !length_app. simpl.
  rewrite <-IH. f_equal.
  - f_equal. apply filter_ext_elem_of. intros i Hi%elem_of_seq.
    by rewrite lookup_app_l by lia.
  - rewrite !filter_cons, lookup_app_r, Nat.sub_diag by lia. simpl.
    by repeat case_decide.
Qed.

Lemma highlight_text_matches_exact (doc : document) (pattern : string)
    (color : Z) :
  let n := length (filter (λ e, highlightable pattern e = true)
                     (ModelSpace doc)) in
  highlight_text_matches (Active doc) pattern color =
    (if decide (0 < n) then TextHighlighted n else TextNoMatches,
     Active {| Name := Name doc;
               ModelSpace :=
                 (λ e, if highlightable pattern e then with_color color e else e)
                   <$> ModelSpace doc;
               SelectionSets :=
                 if decide (0 < n)
                 then <["TextMatches" := highlighted_indices pattern doc]>
                        (SelectionSets doc)
                 else delete "TextMatches" (SelectionSets doc) |}).
Proof.
  intros n. unfold highlight_text_matches.
  set (doc0 := with_sets _ doc).
  destruct (highlight_fold pattern color (seq 0 (length (ModelSpace doc)))
              doc0 0 [])
    as (doc' & -> & Hname & Hsets & Hms).
  { apply NoDup_seq. }
  { intros i _. apply not_elem_of_nil. }
  { apply lookup_insert_eq. }
  change (ModelSpace doc0) with (ModelSpace doc) in *.
  fold (highlighted_indices pattern doc) in *.
  assert (length (highlighted_indices pattern doc) = n) as Hn.
  { unfold highlighted_indices, highlightable_at.
    apply (length_filter_indices (highlightable pattern)). }
  simpl in Hsets. rewrite insert_insert_eq, insert_delete_eq in Hsets.
  assert (ModelSpace doc' =
            (λ e, if highlightable pattern e then with_color color e else e)
              <$> ModelSpace doc) as Hms'.
  { apply list_eq. intros j. rewrite Hms, list_lookup_fmap.
    destruct (ModelSpace doc !! j) as [e|] eqn:He; [|done]. simpl. f_equal.
    destruct (highlightable pattern e) eqn:Hh.
    - by rewrite bool_decide_eq_true_2
        by by apply (highlighted_indices_elem_of _ _ _ e).
    - rewrite bool_decide_eq_false_2; [done|].
      rewrite (highlighted_indices_elem_of _ _ _ e) by done. by rewrite Hh. }
  simpl. rewrite Hn. destruct doc' as [nm' ms' sets']. simpl in *. subst.
  case_decide; [done|].
  unfold delete_selection_set, with_sets. simpl.
  by rewrite delete_insert_eq.
Qed.

(** X15: The effect of [highlight_text_matches] on an open document: it never
    fails, also when a set called [TextMatches] is left from an earlier
    call; the entities whose text contains the pattern, whose colour can be
    read and which are not locked get the colour, and no other entity
    changes; their number is reported; the set [TextMatches] holds them,
    in model-space order, when there is at least one, and is absent
    otherwise; every other selection set is kept. *)
Theorem highlight_text_matches_effect (doc : document) (pattern : string)
    (color : Z) :
  let n := length (filter (λ e, highlightable pattern e = true)
                     (ModelSpace doc)) in
  highlight_text_matches (Active doc) pattern color =
    (if decide (0 < n) then TextHighlighted n else TextNoMatches,
     Active {| Name := Name doc;
               ModelSpace :=
                 (λ e, if highlightable pattern e then with_color color e else e)
                   <$> ModelSpace doc;
               SelectionSets :=
                 if decide (0 < n)
                 then <["TextMatches" := highlighted_indices pattern doc]>
                        (SelectionSets doc)
                 else delete "TextMatches" (SelectionSets doc) |}).
Proof. apply highlight_text_matches_exact. Qed.

(** X16: The two text tools agree: when every entity whose text contains the
    pattern has a readable colour and is not locked, the number
    [highlight_text_matches] reports is the count [count_text_patterns]
    reports and stores. *)
Theorem highlight_count_agrees_with_pattern_count (doc : document)
    (db : store) (pattern drawing_name : string) (color : Z) :
  read (Name doc) = Some drawing_name →
  Forall (λ e, text_matches pattern e = true →
               is_Some (read (Color e)) ∧ locked e = false) (ModelSpace doc) →
  0 < matching_count pattern doc →
  (highlight_text_matches (Active doc) pattern color).1
    = TextHighlighted (matching_count pattern doc) ∧
  ∃ shown more,
    (count_text_patterns (Active doc) db pattern).1
      = Counted (matching_count pattern doc) drawing_name shown more.
Proof.
  intros Hname Hall Hpos. split.
  - rewrite highlight_text_matches_exact. simpl.
    assert (filter (λ e, highlightable pattern e = true) (ModelSpace doc)
            = filter (λ e, text_matches pattern e = true) (ModelSpace doc)) as ->.
    { apply filter_ext_elem_of. intros e He. unfold highlightable.
      rewrite Forall_forall in Hall. specialize (Hall e He).
      destruct (text_matches pattern e); [|done]. simpl.
      destruct Hall as [Hc ->]; [done|].
      by rewrite bool_decide_eq_true_2. }
    fold (matching_count pattern doc). by rewrite decide_True.
  - destruct (count_text_patterns_active doc db pattern drawing_name Hname)
      as (shown & more & ->). eauto.
Qed.

Lemma highlight_count_agrees_with_pattern_count_witness :
  let doc := drawing [text_entity "1A" "PMC-3M pump"; text_entity "2B" "spare";
                      text_entity "3C" "valve PMC-3M"] in
  (highlight_text_matches (Active doc) "PMC-3M" 2).1 = TextHighlighted 2.
Proof.
  intros doc.
  destruct (highlight_count_agrees_with_pattern_count doc empty_store
              "PMC-3M" "Drawing1.dwg" 2%Z) as [Hrun _].
  - reflexivity.
  - repeat (apply Forall_cons_2; [intros _; split; [by eexists|reflexivity]|]).
    apply Forall_nil_2.
  - vm_compute. lia.
  - exact Hrun.
Defined.

(** ** The effect of [query_and_highlight] when no write fails *)

(** [AddItems] on the members of a set. *)
Definition add_once (members : list nat) (i : nat) : list nat :=
  if bool_decide (i ∈ members) then members else members ++ [i].

(** The entity each row resolves to: the first entity selected by its
    handle, for the rows whose handle selects one. *)
Definition resolved (handles : list sql_value) (doc : document) : list nat :=
  omap (λ h, head (select_value h doc)) handles.

Lemma add_once_foldl (l m : list nat) :
  NoDup m →
  NoDup (foldl add_once m l) ∧
  ∀ i, i ∈ foldl add_once m l ↔ i ∈ m ∨ i ∈ l.
Proof.
  revert m. induction l as [|x l IH]; intros m Hm; simpl.
  { split; [done|]. intros i. rewrite elem_of_nil. tauto. }
  destruct (IH (add_once m x)) as [Hnd Hin].
  { unfold add_once. case_bool_decide; [done|].
    apply NoDup_app. split_and!; [done| |apply NoDup_singleton].
    intros y Hy ->%list_elem_of_singleton. done. }
  split; [done|]. intros i. rewrite Hin, elem_of_cons. unfold add_once.
  case_bool_decide as Hx.
  - split; [tauto|]. intros [?|[->|?]]; tauto.
  - rewrite elem_of_app, list_elem_of_singleton. tauto.
Qed.

Lemma highlight_handle_exact color rng k doc n h m :
  unlocked doc → no_temp_names rng doc →
  SelectionSets doc !! "QueryResults" = Some m →
  highlight_handle color (rng k) (doc, n) h =
    match select_value h doc with
    | [] => (doc, n)
    | i :: _ =>
        (match ModelSpace doc !! i with
         | Some e =>
             {| Name := Name doc;
                ModelSpace := <[i := with_color color e]> (ModelSpace doc);
                SelectionSets :=
                  <["QueryResults" := add_once m i]> (SelectionSets doc) |}
         | None => doc
         end, n + 1)
    end.
Proof.
  intros Hu Hfree Hqr. unfold highlight_handle, add_selection_set.
  rewrite (Hfree k). simpl.
  assert (select_value h
            (with_sets (<[temp_name (rng k):=[]]> (SelectionSets doc)) doc)
          = select_value h doc) as -> by by destruct h.
  pose proof (temp_name_not_query_results (rng k)) as Hne.
  destruct (select_value h doc) as [|i found] eqn:Hsel.
  - unfold delete_selection_set, with_sets. simpl.
    rewrite scratch_set_round_trip by apply Hfree. by destruct doc.
  - assert (is_Some (ModelSpace doc !! i)) as [e He].
    { destruct h as [| |h| |]; simpl in Hsel; try done.
      destruct (select_from_lookup 0 h (ModelSpace doc) i) as [_ Hi].
      { unfold select_by_handle in Hsel. rewrite Hsel. apply elem_of_cons. auto. }
      by rewrite Nat.sub_0_r in Hi. }
    unfold set_color. simpl. rewrite He. simpl.
    assert (locked e = false) as ->
      by (unfold unlocked in Hu; rewrite Forall_lookup in Hu; by eapply Hu).
    unfold add_item, delete_selection_set, with_sets, add_once. simpl.
    rewrite insert_insert_eq, lookup_insert_ne, Hqr by done.
    case_bool_decide; simpl; f_equal; f_equal.
    + rewrite delete_insert_eq, delete_id by apply Hfree.
      by rewrite insert_id.
    + rewrite delete_insert_ne, delete_insert_eq, delete_id by (done || apply Hfree).
      done.
Qed.

Lemma highlight_loop_exact color rng handles k doc n m :
  unlocked doc → no_temp_names rng doc →
  SelectionSets doc !! "QueryResults" = Some m →
  ∃ doc',
    highlight_loop color rng k handles (doc, n)
      = (doc', n + length (resolved handles doc)) ∧
    Name doc' = Name doc ∧
    SelectionSets doc' =
      <["QueryResults" := foldl add_once m (resolved handles doc)]>
        (SelectionSets doc) ∧
    ∀ j, ModelSpace doc' !! j =
           (λ e, if bool_decide (j ∈ resolved handles doc)
                 then with_color color e else e) <$> ModelSpace doc !! j.
Proof.
  revert k doc n m.
  induction handles as [|h l IH]; intros k doc n m Hu Hfree Hqr;
    cbn [highlight_loop].
  { exists doc. simpl. split_and!; [by rewrite Nat.add_0_r|done| |].
    - by rewrite insert_id.
    - intros j. by destruct (ModelSpace doc !! j). }
  rewrite (highlight_handle_exact color rng k doc n h m) by done.
  unfold resolved. csimpl. fold (resolved l doc).
  destruct (select_value h doc) as [|i found] eqn:Hsel; simpl.
  { by apply IH. }
  assert (is_Some (ModelSpace doc !! i)) as [e He].
  { destruct h as [| |h| |]; simpl in Hsel; try done.
    destruct (select_from_lookup 0 h (ModelSpace doc) i) as [_ Hi].
    { unfold select_by_handle in Hsel. rewrite Hsel. apply elem_of_cons. auto. }
    by rewrite Nat.sub_0_r in Hi. }
  rewrite He. set (doc1 := {| Name := Name doc; ModelSpace := _; SelectionSets := _ |}).
  assert (same_identity doc doc1) as Hid.
  { unfold same_identity, doc1. simpl. rewrite !list_fmap_insert. simpl.
    split; apply list_insert_id; by rewrite list_lookup_fmap, He. }
  assert (no_temp_names rng doc1) as Hfree1.
  { intros k'. unfold doc1. simpl.
    rewrite lookup_insert_ne by (symmetry; apply temp_name_not_query_results).
    apply Hfree. }
  destruct (IH (S k) doc1 (n + 1) (add_once m i)) as (doc' & -> & Hn & Hs & Hm);
    [by eapply unlocked_same_identity|done|apply lookup_insert_eq|].
  assert (resolved l doc1 = resolved l doc) as Hres.
  { unfold resolved. apply list_omap_ext, Forall2_same_length_lookup.
    split; [done|]. intros j x y Hx Hy. simplify_eq.
    by rewrite (select_value_same_identity doc doc1). }
  rewrite Hres in *. exists doc'. split_and!.
  - f_equal. lia.
  - done.
  - rewrite Hs. unfold doc1. simpl. by rewrite insert_insert_eq.
  - intros j. rewrite Hm. unfold doc1. simpl.
    destruct (decide (j = i)) as [->|Hne].
    + rewrite list_lookup_insert_eq by (by eapply lookup_lt_Some).
      rewrite He. simpl. rewrite (bool_decide_eq_true_2 (i ∈ i :: _)) by left.
      by case_bool_decide.
    + rewrite list_lookup_insert_ne by done.
      destruct (ModelSpace doc !! j); [|done]. simpl.
      match goal with
      | |- context [bool_decide (j ∈ i :: ?F)] =>
          rewrite (bool_decide_ext (j ∈ i :: F) (j ∈ F)); [done|]
      end.
      rewrite elem_of_cons. tauto.
Qed.

(** X17: On a document without locked entities, with the drawn scratch names
    free, [query_and_highlight] leaves no scratch set behind: the selection
    sets after the call are those before it, except [QueryResults], which
    holds each resolved entity once when a row resolved and is absent
    otherwise; the resolved entities have the highlight colour and every
    other entity is as it was; the count reported is the number of rows
    that resolved. *)
Theorem query_and_highlight_effect (sqlite : sql_engine) (rng : nat → N)
    (db : store) (doc : document) (sql_query : string) (color : Z)
    (columns : list string) (row : list sql_value)
    (rows : list (list sql_value)) (rowcount : Z) (db' : store)
    (handle_index : nat) (handles : list sql_value) :
  sqlite db sql_query = ExecOk (Some columns) (row :: rows) rowcount db' →
  find_handle 0 columns = Some handle_index →
  extract_handles handle_index (row :: rows) = Some handles →
  unlocked doc → no_temp_names rng doc →
  ∃ doc' members,
    query_and_highlight sqlite rng db (Active doc) sql_query color =
      (if decide (0 < length (resolved handles doc))
       then HighlightedRows (length (resolved handles doc)) (length (row :: rows))
       else NoneHighlighted,
       Active doc') ∧
    Name doc' = Name doc ∧
    SelectionSets doc' =
      (if decide (0 < length (resolved handles doc))
       then <["QueryResults" := members]> (SelectionSets doc)
       else delete "QueryResults" (SelectionSets doc)) ∧
    NoDup members ∧
    (∀ i, i ∈ members ↔ i ∈ resolved handles doc) ∧
    ∀ j, ModelSpace doc' !! j =
           (λ e, if bool_decide (j ∈ resolved handles doc)
                 then with_color color e else e) <$> ModelSpace doc !! j.
Proof.
  intros Hexec Hfind Hext Hu Hfree. unfold query_and_highlight.
  rewrite Hexec, Hfind, Hext. unfold highlight_handles.
  set (doc0 := with_sets _ doc).
  assert (same_identity doc doc0) as Hid0 by done.
  assert (no_temp_names rng doc0) as Hfree0.
  { intros k. unfold doc0. simpl.
    rewrite lookup_insert_ne by (symmetry; apply temp_name_not_query_results).
    rewrite lookup_delete_ne by (symmetry; apply temp_name_not_query_results).
    apply Hfree. }
  destruct (highlight_loop_exact color rng handles 0 doc0 0 [])
    as (doc1 & -> & Hn & Hs & Hm);
    [by eapply unlocked_same_identity|done|apply lookup_insert_eq|].
  assert (resolved handles doc0 = resolved handles doc) as Hres by done.
  rewrite Hres in *. change (ModelSpace doc0) with (ModelSpace doc) in Hm.
  unfold doc0 in Hs. simpl in Hs.
  rewrite insert_insert_eq, insert_delete_eq in Hs.
  destruct (add_once_foldl (resolved handles doc) []) as [Hnd Hin];
    [apply NoDup_nil_2|].
  unfold extract_handles in Hext. rewrite <-(length_mapM _ _ _ Hext).
  simpl. case_decide.
  - exists doc1, (foldl add_once [] (resolved handles doc)).
    split_and!; try done. intros i. rewrite Hin, elem_of_nil. tauto.
  - exists (delete_selection_set "QueryResults" doc1), [].
    split_and!; try done.
    + unfold delete_selection_set. simpl. by rewrite Hs, delete_insert_eq.
    + apply NoDup_nil_2.
    + intros i. destruct (resolved handles doc); [done|simpl in *; lia].
Qed.

Lemma query_and_highlight_effect_witness :
  ∃ doc' members,
    query_and_highlight
      (fixed_result ["handle"] [[SqlText "2B"]; [SqlText "7F"]; [SqlText "2B"]])
      (λ _, 0%N) empty_store (Active two_lines)
      "SELECT handle FROM cad_elements" 1
    = (HighlightedRows 2 3, Active doc') ∧
    SelectionSets doc' = <["QueryResults" := members]> (SelectionSets two_lines) ∧
    NoDup members.
Proof.
  destruct (query_and_highlight_effect
              (fixed_result ["handle"]
                 [[SqlText "2B"]; [SqlText "7F"]; [SqlText "2B"]])
              (λ _, 0%N) empty_store two_lines
              "SELECT handle FROM cad_elements" 1%Z ["handle"]
              [SqlText "2B"] [[SqlText "7F"]; [SqlText "2B"]] (-1)%Z
              empty_store 0 [SqlText "2B"; SqlText "7F"; SqlText "2B"]
              eq_refl)
    as (doc' & members & Hrun & _ & Hsets & Hnd & _);
    [reflexivity | reflexivity | repeat constructor
    | apply drawing_free_names |].
  exists doc', members. split_and!; [exact Hrun|exact Hsets|exact Hnd].
Defined.

(** X18: Whatever the engine, the generator and the application, the
    answer of [query_and_highlight] is a count or "nothing highlighted"
    exactly when a document is open and the store returned at least one
    row, with a handle column that every row reaches.  Every call that ends
    with another answer returns the application as it received it, and a
    count that is reported is positive, out of the number of rows. *)
Theorem query_and_highlight_early_answers (sqlite : sql_engine)
    (rng : nat → N) (db : store) (acad : application) (sql_query : string)
    (color : Z) :
  (((query_and_highlight sqlite rng db acad sql_query color).1 = NoneHighlighted ∨
    ∃ n total,
      (query_and_highlight sqlite rng db acad sql_query color).1
        = HighlightedRows n total)
   ↔
   ∃ doc columns rows rowcount db' handle_index,
     acad = Active doc ∧
     sqlite db sql_query = ExecOk (Some columns) rows rowcount db' ∧
     rows ≠ [] ∧
     find_handle 0 columns = Some handle_index ∧
     is_Some (extract_handles handle_index rows)) ∧
  ((query_and_highlight sqlite rng db acad sql_query color).1 ≠ NoneHighlighted →
   (∀ n total,
      (query_and_highlight sqlite rng db acad sql_query color).1
        ≠ HighlightedRows n total) →
   (query_and_highlight sqlite rng db acad sql_query color).2 = acad) ∧
  (∀ n total,
     (query_and_highlight sqlite rng db acad sql_query color).1
       = HighlightedRows n total →
     0 < n ∧
     ∃ description rows rowcount db',
       sqlite db sql_query = ExecOk description rows rowcount db' ∧
       total = length rows).
Proof.
  unfold query_and_highlight.
  destruct (sqlite db sql_query) as [msg|description rows rowcount db'] eqn:Hexec.
  { split_and!; [split|done|done].
    - by intros [|(? & ? & ?)].
    - by intros (? & ? & ? & ? & ? & ? & ? & ? & ?). }
  destruct rows as [|row rows].
  { split_and!; [split|done|done].
    - by intros [|(? & ? & ?)].
    - intros (? & ? & ? & ? & ? & ? & ? & ? & ? & ?). by simplify_eq. }
  destruct description as [columns|]; last first.
  { split_and!; [split|done|done].
    - by intros [|(? & ? & ?)].
    - by intros (? & ? & ? & ? & ? & ? & ? & ? & ?). }
  destruct (find_handle 0 columns) as [handle_index|] eqn:Hfind; last first.
  { split_and!; [split|done|done].
    - by intros [|(? & ? & ?)].
    - intros (? & ? & ? & ? & ? & ? & ? & ? & ? & ? & ?). by simplify_eq. }
  destruct (extract_handles handle_index (row :: rows)) as [handles|] eqn:Hext;
    last first.
  { split_and!; [split|done|done].
    - by intros [|(? & ? & ?)].
    - intros (? & ? & ? & ? & ? & ? & ? & ? & ? & ? & [? Hsome]).
      simplify_eq. }
  destruct acad as [| |doc].
  { split_and!; [split|done|done].
    - by intros [|(? & ? & ?)].
    - by intros (? & ? & ? & ? & ? & ? & ? & ?). }
  { split_and!; [split|done|done].
    - by intros [|(? & ? & ?)].
    - by intros (? & ? & ? & ? & ? & ? & ? & ?). }
  unfold highlight_handles. destruct (highlight_loop _ _ _ _ _) as [doc1 n].
  unfold extract_handles in Hext. rewrite <-(length_mapM _ _ _ Hext).
  split_and!.
  - split.
    + intros _. exists doc, columns, (row :: rows), rowcount, db', handle_index.
      split_and!; [done|done|done|done|].
      unfold extract_handles. by rewrite Hext.
    + intros _. case_decide; simpl; [right; eauto|by left].
  - case_decide; simpl; [|done]. intros _ Hcount. by destruct (Hcount n (S (length rows))).
  - intros n' total. case_decide; simpl; [|done]. intros [= <- <-].
    split; [done|]. by exists (Some columns), (row :: rows), rowcount, db'.
Qed.

(** ** [query_and_highlight] with locked entities *)

(** X19: With pairwise different scratch names, none of them taken, the count
    [query_and_highlight] reports is the number of rows whose handle
    resolves to an entity whose colour can be written, and the scratch
    sets left in the document are exactly those of the rows that resolve to
    a locked entity. *)
Theorem query_and_highlight_with_locked_entities (sqlite : sql_engine)
    (rng : nat → N) (db : store) (doc : document) (sql_query : string)
    (color : Z) (columns : list string) (row : list sql_value)
    (rows : list (list sql_value)) (rowcount : Z) (db' : store)
    (handle_index : nat) (handles : list sql_value) :
  sqlite db sql_query = ExecOk (Some columns) (row :: rows) rowcount db' →
  find_handle 0 columns = Some handle_index →
  extract_handles handle_index (row :: rows) = Some handles →
  NoDup ((λ j, temp_name (rng j)) <$> seq 0 (length handles)) →
  (∀ j, j < length handles → SelectionSets doc !! temp_name (rng j) = None) →
  ∃ doc',
    query_and_highlight sqlite rng db (Active doc) sql_query color =
      (let n := length (filter (λ h, writable_match doc h = true) handles) in
       if decide (0 < n)
       then HighlightedRows n (length (row :: rows))
       else NoneHighlighted,
       Active doc') ∧
    ∀ j h, handles !! j = Some h →
      SelectionSets doc' !! temp_name (rng j)
        = (if locked_match doc h then Some (select_value h doc) else None).
Proof.
  intros Hexec Hfind Hext Hnd Hfree.
  destruct (query_and_highlight_any sqlite rng db doc sql_query color columns
              row rows rowcount db' handle_index handles)
    as (doc' & _ & Hrun & Hleft); [done..|].
  by exists doc'.
Qed.

Lemma query_and_highlight_with_locked_entities_witness :
  ∃ doc',
    query_and_highlight
      (fixed_result ["handle"] [[SqlText "2A"]; [SqlText "1A"]])
      (λ k, N.of_nat k) empty_store (Active locked_drawing)
      "SELECT handle FROM cad_elements" 1
    = (HighlightedRows 1 2, Active doc') ∧
    SelectionSets doc' !! "Temp_1000" = Some [0] ∧
    SelectionSets doc' !! "Temp_1001" = None.
Proof.
  destruct (query_and_highlight_with_locked_entities
              (fixed_result ["handle"] [[SqlText "2A"]; [SqlText "1A"]])
              (λ k, N.of_nat k) empty_store locked_drawing
              "SELECT handle FROM cad_elements" 1%Z ["handle"]
              [SqlText "2A"] [[SqlText "1A"]] (-1)%Z
              empty_store 0 [SqlText "2A"; SqlText "1A"] eq_refl)
    as (doc' & Hrun & Hleft);
    [reflexivity | reflexivity
    | apply (bool_decide_unpack _); by vm_compute
    | intros j _; apply lookup_empty |].
  exists doc'. split_and!.
  - exact Hrun.
  - exact (Hleft 0 (SqlText "2A") eq_refl).
  - exact (Hleft 1 (SqlText "1A") eq_refl).
Defined.

(** ** The row dictionaries of [execute_query] *)

(** X20: On a text starting with SELECT that the store runs,
    [execute_query] builds for each row a dictionary that has every column
    name once, the value under a name being that of the last column of that
    name; the caller gets these dictionaries when none of their values is a
    BLOB, and the failure result otherwise. *)
Theorem execute_query_duplicate_columns (sqlite : sql_engine) (db : store)
    (query : string) (columns : list string) (rows : list (list sql_value))
    (rowcount : Z) (db' : store) :
  sqlite db query = ExecOk (Some columns) rows rowcount db' →
  startswith "SELECT" (upper (strip query)) = true →
  ∃ result,
    execute_query sqlite db query
      = (if all_serializable result
         then QueryRows result
         else QueryError "Object of type bytes is not JSON serializable",
         db') ∧
    Forall2 (λ d row,
      NoDup d.*1 ∧
      ∀ name, filter (λ kv, kv.1 = name) d
              = option_list (last (filter (λ kv, kv.1 = name) (zip columns row))))
      result rows.
Proof.
  intros Hexec Hsel. unfold execute_query. rewrite Hexec, Hsel. cbv zeta.
  exists ((λ row, dict_of (zip columns row)) <$> rows). split.
  - by destruct (all_serializable ((λ row, dict_of (zip columns row)) <$> rows)).
  - apply Forall2_fmap_l, Forall_Forall2_diag.
    apply Forall_forall. intros row _. apply dict_of_last_wins.
Qed.

Lemma execute_query_duplicate_columns_witness :
  ∃ result,
    execute_query (fixed_result ["a"; "b"; "a"]
                     [[SqlInteger 1; SqlInteger 2; SqlInteger 3]])
      empty_store "SELECT 1 AS a, 2 AS b, 3 AS a"
    = (if all_serializable result
       then QueryRows result
       else QueryError "Object of type bytes is not JSON serializable",
       empty_store) ∧
    Forall2 (λ d row,
      NoDup d.*1 ∧
      ∀ name, filter (λ kv, kv.1 = name) d
              = option_list (last (filter (λ kv, kv.1 = name)
                                     (zip ["a"; "b"; "a"] row))))
      result [[SqlInteger 1; SqlInteger 2; SqlInteger 3]].
Proof.
  apply (execute_query_duplicate_columns
           (fixed_result ["a"; "b"; "a"]
              [[SqlInteger 1; SqlInteger 2; SqlInteger 3]])
           empty_store "SELECT 1 AS a, 2 AS b, 3 AS a" ["a"; "b"; "a"]
           [[SqlInteger 1; SqlInteger 2; SqlInteger 3]] (-1)%Z empty_store
           eq_refl).
  reflexivity.
Defined.

(** ** The drawing tools: [draw_line] and [draw_circle] *)

(** The layers of the open document: [doc.Layers] and [doc.ActiveLayer]. *)
Record layer_table : Type := {
  Layers : list string;
  ActiveLayer : string
}.

(** [doc.Layers.Item(name)]: the layer of that name, names being compared
    without regard to case as the application does; [None] when it
    raises. *)
Definition layer_item (name : string) (layers : list string) : option string :=
  head (filter (λ l, lower l = lower name) layers).

(** The block under [if layer:]: the layer is created when
    [doc.Layers.Item(layer)] raises, and made the active one.  [None] and
    the empty string are both false. *)
Definition use_layer (layer : option string) (lt : layer_table)
    : layer_table :=
  match layer with
  | Some name =>
      if bool_decide (name = "") then lt
      else match layer_item name (Layers lt) with
           | Some stored => {| Layers := Layers lt; ActiveLayer := stored |}
           | None => {| Layers := Layers lt ++ [name]; ActiveLayer := name |}
           end
  | None => lt
  end.

(** What [model_space.AddLine] and [model_space.AddCircle] add: an entity
    on the active layer, under the handle the application assigns. *)
Definition added_line (h layer : string) (s e : point) : com_entity :=
  {| ObjectName := Has "AcDbLine"; Handle := Has (Some h); Layer := Has layer;
     Color := Has 256%Z; locked := false;
     StartPoint := Has s; EndPoint := Has e; Center := Missing;
     Radius := Missing; TextString := Missing; InsertionPoint := Missing;
     Height := Missing |}.

Definition added_circle (h layer : string) (c : point) (r : Z) : com_entity :=
  {| ObjectName := Has "AcDbCircle"; Handle := Has (Some h); Layer := Has layer;
     Color := Has 256%Z; locked := false;
     StartPoint := Missing; EndPoint := Missing; Center := Has c;
     Radius := Has r; TextString := Missing; InsertionPoint := Missing;
     Height := Missing |}.

Definition with_entity (e : com_entity) (doc : document) : document :=
  {| Name := Name doc; ModelSpace := ModelSpace doc ++ [e];
     SelectionSets := SelectionSets doc |}.

(** [INSERT INTO cad_elements (handle, name, type, layer, properties)
    VALUES (?, ?, ?, ?, ?)]: raises when the handle is taken. *)
Definition insert_element (v : element_values) (t : list cad_element)
    : option (list cad_element) :=
  if bool_decide (Forall (λ r, unique_conflict (ev_handle v) (ce_handle r) = false) t)
  then Some (t ++ [ {| ce_id := next_rowid (ce_id <$> t);
                       ce_handle := ev_handle v;
                       ce_name := ev_name v;
                       ce_type := ev_type v;
                       ce_layer := Some (ev_layer v);
                       ce_properties := Some (ev_properties v) |} ])
  else None.

Inductive draw_result : Type :=
| DrawNoDocument                          (* "No open document. ..." *)
| Drawn (handle : string) (layer : string)  (* "Line created, Handle: ..., Layer: ..." *)
| DrawFailed.                             (* "Failed to create ...: ..." *)

(** The values [draw_line] binds to its insert. *)
Definition line_values (h layer : string) (start_x start_y end_x end_y : Z)
    : element_values :=
  {| ev_handle := Some h; ev_name := "Line"; ev_type := "AcDbLine";
     ev_layer := layer;
     ev_properties :=
       JObj [("start_point", JArr [JNum start_x; JNum start_y; JNum 0]);
             ("end_point", JArr [JNum end_x; JNum end_y; JNum 0])] |}.

(** The values [draw_circle] binds to its insert. *)
Definition circle_values (h layer : string) (center_x center_y radius : Z)
    : element_values :=
  {| ev_handle := Some h; ev_name := "Circle"; ev_type := "AcDbCircle";
     ev_layer := layer;
     ev_properties :=
       JObj [("center_point", JArr [JNum center_x; JNum center_y; JNum 0]);
             ("radius", JNum radius)] |}.

(** The common course of the two tools: the layer, the new entity [e] in
    the model space, then the insert of [v]; the entity stays when the
    insert raises.  [e] and [v] are given the active layer. *)
Definition draw_entity (acad : application) (layers : layer_table)
    (db : store) (layer : option string) (h : string)
    (e : string → com_entity) (v : string → element_values)
    : draw_result * application * layer_table * store :=
  match acad with
  | Unavailable => (DrawFailed, acad, layers, db)
  | NoDocument => (DrawNoDocument, acad, layers, db)
  | Active doc =>
      let layers' := use_layer layer layers in
      let doc' := with_entity (e (ActiveLayer layers')) doc in
      match insert_element (v (ActiveLayer layers')) (cad_elements db) with
      | Some t =>
          (Drawn h (ActiveLayer layers'), Active doc', layers',
           {| cad_elements := t; text_patterns := text_patterns db |})
      | None => (DrawFailed, Active doc', layers', db)
      end
  end.

(** [new_handle] is the handle the application gives the new entity. *)
Definition draw_line (acad : application) (layers : layer_table) (db : store)
    (new_handle : string) (start_x start_y end_x end_y : Z)
    (layer : option string) : draw_result * application * layer_table * store :=
  draw_entity acad layers db layer new_handle
    (λ ly, added_line new_handle ly (start_x, start_y, 0%Z) (end_x, end_y, 0%Z))
    (λ ly, line_values new_handle ly start_x start_y end_x end_y).

Definition draw_circle (acad : application) (layers : layer_table) (db : store)
    (new_handle : string) (center_x center_y radius : Z)
    (layer : option string) : draw_result * application * layer_table * store :=
  draw_entity acad layers db layer new_handle
    (λ ly, added_circle new_handle ly (center_x, center_y, 0%Z) radius)
    (λ ly, circle_values new_handle ly center_x center_y radius).

Lemma insert_element_Some h (v : element_values) (t : list cad_element) :
  ev_handle v = Some h →
  Some h ∉ ce_handle <$> t →
  insert_element v t =
    Some (t ++ [ {| ce_id := next_rowid (ce_id <$> t);
                    ce_handle := Some h;
                    ce_name := ev_name v;
                    ce_type := ev_type v;
                    ce_layer := Some (ev_layer v);
                    ce_properties := Some (ev_properties v) |} ]).
Proof.
  intros Hv Hfree. unfold insert_element. rewrite Hv.
  rewrite bool_decide_eq_true_2; [done|].
  apply Forall_forall. intros r Hr. apply not_true_is_false.
  intros (h' & [= <-] & Hh)%unique_conflict_true.
  apply Hfree. rewrite <-Hh. by apply list_elem_of_fmap_2.
Qed.

Lemma insert_element_None h (v : element_values) (t : list cad_element) :
  ev_handle v = Some h →
  Some h ∈ ce_handle <$> t →
  insert_element v t = None.
Proof.
  intros Hv (r & Hh & Hr)%list_elem_of_fmap. unfold insert_element.
  rewrite bool_decide_eq_false_2; [done|].
  rewrite Forall_forall. intros Hall. specialize (Hall r Hr).
  rewrite Hv, <-Hh in Hall. simpl in Hall.
  by rewrite bool_decide_eq_true_2 in Hall.
Qed.

Lemma scan_after_drawing doc e v h db :
  capture e = Some v → ev_handle v = Some h →
  filter (λ c, content_key c = Some h)
    (row_content <$>
       cad_elements (scan_all_entities (Active (with_entity e doc)) db).2)
  = [bound_content v].
Proof.
  intros Hcap Hh. cbn [scan_all_entities snd cad_elements].
  destruct (scan_loop_rows (ModelSpace (with_entity e doc))) as [-> _].
  rewrite keep_last_filter, list_filter_fmap_comm, fmap_last. simpl.
  rewrite omap_app. csimpl. rewrite Hcap. simpl.
  rewrite filter_app, filter_cons, decide_True by done.
  by rewrite filter_nil, last_snoc.
Qed.

(** X21: A line drawn under a handle the table does not hold yet: the tool
    reports the handle and the active layer, the model space gains the
    line, and the table gains one row for it, after the rows it had.  A
    scan of the drawing that follows stores the line under the same handle,
    name, type and layer as the row [draw_line] wrote. *)
Theorem draw_line_then_scan (doc : document) (layers : layer_table)
    (db db2 : store) (h : string) (start_x start_y end_x end_y : Z)
    (layer : option string) :
  Some h ∉ ce_handle <$> cad_elements db →
  ∃ row,
    draw_line (Active doc) layers db h start_x start_y end_x end_y layer
      = (Drawn h (ActiveLayer (use_layer layer layers)),
         Active (with_entity
                   (added_line h (ActiveLayer (use_layer layer layers))
                      (start_x, start_y, 0%Z) (end_x, end_y, 0%Z)) doc),
         use_layer layer layers,
         {| cad_elements := cad_elements db ++ [row];
            text_patterns := text_patterns db |}) ∧
    (row_content row).1
      = (Some h, "Line", "AcDbLine", Some (ActiveLayer (use_layer layer layers))) ∧
    (filter (λ c, content_key c = Some h)
       (row_content <$>
          cad_elements
            (scan_all_entities
               (Active (with_entity
                          (added_line h (ActiveLayer (use_layer layer layers))
                             (start_x, start_y, 0%Z) (end_x, end_y, 0%Z)) doc))
               db2).2)).*1
      = [(row_content row).1].
Proof.
  intros Hfree. unfold draw_line, draw_entity.
  rewrite (insert_element_Some h) by done. eexists. split_and!; [done|done|].
  rewrite (scan_after_drawing doc _
             (line_values h (ActiveLayer (use_layer layer layers))
                start_x start_y end_x end_y) h) by reflexivity.
  done.
Qed.

Lemma draw_line_then_scan_witness :
  ∃ row,
    draw_line (Active two_lines) {| Layers := ["0"]; ActiveLayer := "0" |}
      one_circle "4D" 0 0 10 0 (Some "WIRES")
    = (Drawn "4D" "WIRES",
       Active (with_entity (added_line "4D" "WIRES" (0, 0, 0)%Z (10, 0, 0)%Z)
                 two_lines),
       {| Layers := ["0"; "WIRES"]; ActiveLayer := "WIRES" |},
       {| cad_elements := cad_elements one_circle ++ [row];
          text_patterns := [] |}) ∧
    (row_content row).1 = (Some "4D", "Line", "AcDbLine", Some "WIRES").
Proof.
  destruct (draw_line_then_scan two_lines {| Layers := ["0"]; ActiveLayer := "0" |}
              one_circle empty_store "4D" 0 0 10 0 (Some "WIRES"))
    as (row & Hrun & Hrow & _).
  - apply (bool_decide_unpack _). by vm_compute.
  - exists row. split; [exact Hrun|exact Hrow].
Defined.

(** X22: A line drawn under a handle the table already holds: the insert
    raises, the tool answers with its failure and the table is unchanged,
    but the line is in the model space and the layer stays switched: the
    drawing and the snapshot differ until the next scan.  The same holds
    for a circle. *)
Theorem draw_with_stored_handle_fails (doc : document) (layers : layer_table)
    (db : store) (h : string) (x1 y1 x2 y2 radius : Z) (layer : option string) :
  Some h ∈ ce_handle <$> cad_elements db →
  draw_line (Active doc) layers db h x1 y1 x2 y2 layer
    = (DrawFailed,
       Active (with_entity
                 (added_line h (ActiveLayer (use_layer layer layers))
                    (x1, y1, 0%Z) (x2, y2, 0%Z)) doc),
       use_layer layer layers, db) ∧
  draw_circle (Active doc) layers db h x1 y1 radius layer
    = (DrawFailed,
       Active (with_entity
                 (added_circle h (ActiveLayer (use_layer layer layers))
                    (x1, y1, 0%Z) radius) doc),
       use_layer layer layers, db).
Proof.
  intros Htaken. unfold draw_line, draw_circle, draw_entity.
  by rewrite !(insert_element_None h).
Qed.

Lemma draw_with_stored_handle_fails_witness :
  draw_line (Active two_lines) {| Layers := ["0"]; ActiveLayer := "0" |}
    one_circle "9Z" 0 0 10 0 None
  = (DrawFailed,
     Active (with_entity (added_line "9Z" "0" (0, 0, 0)%Z (10, 0, 0)%Z) two_lines),
     {| Layers := ["0"]; ActiveLayer := "0" |}, one_circle).
Proof.
  apply (draw_with_stored_handle_fails two_lines
           {| Layers := ["0"]; ActiveLayer := "0" |} one_circle "9Z"
           0 0 10 0 1 None).
  apply (bool_decide_unpack _). by vm_compute.
Defined.

(** X23: A circle drawn and then scanned: the scan stores it under the same
    handle, name, type and layer as the row [draw_circle] wrote, but with
    other properties: the tool writes the centre under ["center_point"],
    the scan under ["center"]. *)
Theorem draw_circle_then_scan (doc : document) (layers : layer_table)
    (db db2 : store) (h : string) (center_x center_y radius : Z)
    (layer : option string) :
  Some h ∉ ce_handle <$> cad_elements db →
  ∃ row scanned,
    draw_circle (Active doc) layers db h center_x center_y radius layer
      = (Drawn h (ActiveLayer (use_layer layer layers)),
         Active (with_entity
                   (added_circle h (ActiveLayer (use_layer layer layers))
                      (center_x, center_y, 0%Z) radius) doc),
         use_layer layer layers,
         {| cad_elements := cad_elements db ++ [row];
            text_patterns := text_patterns db |}) ∧
    filter (λ c, content_key c = Some h)
      (row_content <$>
         cad_elements
           (scan_all_entities
              (Active (with_entity
                         (added_circle h (ActiveLayer (use_layer layer layers))
                            (center_x, center_y, 0%Z) radius) doc))
              db2).2)
      = [scanned] ∧
    scanned.1 = (row_content row).1 ∧
    (row_content row).2
      = Some (JObj [("center_point",
                     JArr [JNum center_x; JNum center_y; JNum 0]);
                    ("radius", JNum radius)]) ∧
    scanned.2
      = Some (JObj [("center",
                     JArr [JNum center_x; JNum center_y; JNum 0]);
                    ("radius", JNum radius)]).
Proof.
  intros Hfree. unfold draw_circle, draw_entity.
  rewrite (insert_element_Some h) by done.
  eexists _, (bound_content
                {| ev_handle := Some h; ev_name := "Circle";
                   ev_type := "AcDbCircle";
                   ev_layer := ActiveLayer (use_layer layer layers);
                   ev_properties :=
                     JObj [("center", JArr [JNum center_x; JNum center_y; JNum 0]);
                           ("radius", JNum radius)] |}).
  split_and!; [done| |done|done|done].
  apply (scan_after_drawing doc _
           {| ev_handle := Some h; ev_name := "Circle"; ev_type := "AcDbCircle";
              ev_layer := ActiveLayer (use_layer layer layers);
              ev_properties :=
                JObj [("center", JArr [JNum center_x; JNum center_y; JNum 0]);
                      ("radius", JNum radius)] |} h); reflexivity.
Qed.

Lemma draw_circle_then_scan_witness :
  ∃ row
    (scanned : option string * string * string * option string * option json),
    (draw_circle (Active two_lines) {| Layers := ["0"]; ActiveLayer := "0" |}
       one_circle "4D" 5 5 2 None).2
    = {| cad_elements := cad_elements one_circle ++ [row];
         text_patterns := [] |} ∧
    scanned.1 = (row_content row).1.
Proof.
  destruct (draw_circle_then_scan two_lines
              {| Layers := ["0"]; ActiveLayer := "0" |}
              one_circle empty_store "4D" 5 5 2 None)
    as (row & scanned & Hrun & _ & Hsame & _).
  - apply (bool_decide_unpack _). by vm_compute.
  - exists row, scanned. split; [by rewrite Hrun|exact Hsame].
Defined.

Lemma layer_item_elem_of name layers stored :
  layer_item name layers = Some stored → stored ∈ layers.
Proof.
  unfold layer_item. intros Hh. apply head_Some_elem_of in Hh.
  by apply list_elem_of_filter in Hh as [_ ?].
Qed.

(** X24: The drawing tools keep the layer table sound: whatever the outcome, no
    layer is dropped, and when the active layer was one of the layers it
    still is afterwards. *)
Theorem draw_tools_keep_layers (acad : application) (layers : layer_table)
    (db : store) (h : string) (x1 y1 x2 y2 : Z) (layer : option string) :
  ActiveLayer layers ∈ Layers layers →
  let after_line := (draw_line acad layers db h x1 y1 x2 y2 layer).1.2 in
  let after_circle := (draw_circle acad layers db h x1 y1 x2 layer).1.2 in
  Layers layers ⊆ Layers after_line ∧
  ActiveLayer after_line ∈ Layers after_line ∧
  Layers layers ⊆ Layers after_circle ∧
  ActiveLayer after_circle ∈ Layers after_circle.
Proof.
  intros Hactive.
  assert (Layers layers ⊆ Layers (use_layer layer layers) ∧
          ActiveLayer (use_layer layer layers) ∈ Layers (use_layer layer layers))
    as [Hsub Hin].
  { unfold use_layer. destruct layer as [name|]; [|done].
    case_bool_decide; [done|].
    destruct (layer_item name (Layers layers)) as [stored|] eqn:Hitem; simpl.
    - split; [done|]. by eapply layer_item_elem_of.
    - split; [by apply list_subseteq_app_l|].
      apply elem_of_app. right. by apply list_elem_of_singleton. }
  unfold draw_line, draw_circle, draw_entity.
  destruct acad as [| |doc]; simpl; [done..|].
  by repeat destruct (insert_element _ _).
Qed.

Lemma draw_tools_keep_layers_witness :
  ActiveLayer
    (draw_line (Active two_lines) {| Layers := ["0"; "Wires"]; ActiveLayer := "0" |}
       empty_store "4D" 0 0 10 0 (Some "WIRES")).1.2
  ∈ Layers
      (draw_line (Active two_lines) {| Layers := ["0"; "Wires"]; ActiveLayer := "0" |}
         empty_store "4D" 0 0 10 0 (Some "WIRES")).1.2.
Proof.
  apply (draw_tools_keep_layers (Active two_lines)
           {| Layers := ["0"; "Wires"]; ActiveLayer := "0" |}
           empty_store "4D" 0 0 10 0 (Some "WIRES")).
  apply (bool_decide_unpack _). by vm_compute.
Defined.

(** * [src/autocad_manager.py]: [get_entity_stats] *)

(** The loop has no [try]: the first tag that cannot be read ends the call
    with an exception, as does a manager that is not connected
    ([self.doc] is [None]). *)
Definition get_entity_stats (doc : option document)
    : option (gmap string nat) :=
  d ← doc;
  foldl (λ acc entity,
           entity_counts ← acc;
           entity_type ← read (ObjectName entity);
           Some (count_type entity_type entity_counts))
        (Some ∅) (ModelSpace d).

Lemma get_entity_stats_foldl entities (m : gmap string nat) :
  foldl (λ acc entity,
           entity_counts ← acc;
           entity_type ← read (ObjectName entity);
           Some (count_type entity_type entity_counts))
        (Some m) entities
  = if bool_decide (Forall (λ e, is_Some (read (ObjectName e))) entities)
    then Some (foldl (λ m ty, count_type ty m) m
                 (omap (λ e, read (ObjectName e)) entities))
    else None.
Proof.
  revert m. induction entities as [|e l IH]; intros m; [done|].
  cbn [foldl]. csimpl. destruct (read (ObjectName e)) as [ty|] eqn:Hty; simpl.
  - rewrite IH.
    destruct (decide (Forall (λ e, is_Some (read (ObjectName e))) l)) as [Hl|Hl].
    + rewrite !bool_decide_eq_true_2; [done| |done].
      apply Forall_cons. split; [by rewrite Hty|done].
    + rewrite !bool_decide_eq_false_2; [done| |done].
      by intros [_ ?]%Forall_cons.
  - rewrite bool_decide_eq_false_2
      by (intros [[? Hs] _]%Forall_cons; by rewrite Hty in Hs).
    clear. induction l as [|e' l IH]; [done|]. apply IH.
Qed.

(** X25: The statistics of the manager and the histogram of the scan agree
    when every type tag can be read; when one cannot, the manager raises
    although the scan still reports. *)
Theorem get_entity_stats_agrees_with_scan (doc : document) (db : store) :
  ∃ count entity_types,
    (scan_all_entities (Active doc) db).1 = Scanned count entity_types ∧
    get_entity_stats (Some doc)
      = (if bool_decide (Forall (λ e, is_Some (read (ObjectName e)))
                          (ModelSpace doc))
         then Some entity_types else None) ∧
    get_entity_stats None = None.
Proof.
  simpl. do 2 eexists. split_and!; [done| |done].
  rewrite get_entity_stats_foldl.
  destruct (scan_foldl (ModelSpace doc)
              {| sc_rows := []; sc_count := 0; sc_types := ∅ |})
    as (_ & _ & Ht). simpl in Ht. unfold scan_loop. by rewrite Ht.
Qed.
